(** * DarkPool: the staking ledger and its reward token

    A shallow embedding of [contracts/DarkPoolStaking.sol] and
    [contracts/RewardCoin.sol].  Contract storage is explicit state; a
    Solidity function is a computation in a state-and-revert monad; the
    EVM's rollback of a reverted call is written out in [transact] and
    [attempt].  The FHE library and the ERC7984 base contract are outside
    the repository: the two FHE functions whose results the contracts
    depend on are section variables; the calls to the FHE access-control
    list ([allow], [allowThis], [makePubliclyDecryptable]) are taken to
    return and are recorded in the world's log, as is the call to
    [ERC7984._mint]. *)

From Stdlib Require Import ZArith Lia.
From stdpp Require Import gmap list.

Local Open Scope Z_scope.

(** ** Solidity value types *)

(** [address] is a 160-bit integer and [euint64] a 32-byte ciphertext
    handle; both are read as non-negative integers, with [address(0)] and
    the zero handle at [0]. *)
Abbreviation address := Z (only parsing).
Abbreviation euint64 := Z (only parsing).
Abbreviation bytes := (list Byte.byte) (only parsing).

Definition UINT64_MAX : Z := 2 ^ 64 - 1.
Definition UINT256_MAX : Z := 2 ^ 256 - 1.

(** [uint64(x)] on a wider unsigned value keeps the low 64 bits. *)
Definition to_uint64 (x : Z) : Z := x mod 2 ^ 64.

Definition is_uint64 (x : Z) : Prop := 0 <= x <= UINT64_MAX.

(** ** Errors *)

Inductive Error : Type :=
  | InvalidAmount
  | InvalidDuration
  | InvalidAddress           (* declared by both contracts *)
  | ActiveStakeExists
  | NoActiveStake
  | WithdrawNotReady
  | WithdrawAlreadyRequested
  | InvalidWithdrawRequest
  | RewardOverflow
  | TransferFailed
  | Unauthorized             (* RewardCoin *)
  | InvalidSignatures        (* raised inside FHE.checkSignatures *)
  | Panic.                   (* checked arithmetic of Solidity 0.8 *)

Global Instance Error_eq_dec : EqDecision Error.
Proof. solve_decision. Defined.

(** ** Storage *)

Record StakePosition : Type := mkStakePosition {
  amount : euint64;
  unlockTimestamp : Z;
  active : bool;
  withdrawRequested : bool
}.

(** The value of a mapping slot that was never written, or was deleted. *)
Definition zero_position : StakePosition :=
  {| amount := 0; unlockTimestamp := 0; active := false;
     withdrawRequested := false |}.

(** What the contracts emit and what they ask of the FHE access-control
    list, in the order it happens (newest first). *)
Inductive Effect : Type :=
  | FHE_allow (h : euint64) (account : address)
  | FHE_makePubliclyDecryptable (h : euint64)
  | NativeTransfer (to : address) (value : Z)
  | Staked (staker : address) (amount' : Z) (unlock : Z)
  | WithdrawRequested (staker : address) (h : euint64)
  | WithdrawFinalized (staker : address) (amount' : Z) (rewardAmount' : Z)
  | MinterUpdated (newMinter : address)
  | OwnershipTransferred (previousOwner newOwner : address).

(** [RewardCoin]: its two storage variables, and the calls it made to the
    inherited [ERC7984._mint], newest first. *)
Record RewardCoin : Type := mkRewardCoin {
  owner : address;
  minter : address;
  minted : list (address * euint64)
}.

Record World : Type := mkWorld {
  _stakes : gmap Z StakePosition;
  _withdrawRequests : gmap Z Z;
  balance : Z;                    (* address(this).balance of the staking contract *)
  rewardCoin : RewardCoin;
  log : list Effect
}.

(** Reading a mapping yields the zero value at a key without an entry. *)
Definition stake_of (staker : address) (w : World) : StakePosition :=
  default zero_position (_stakes w !! staker).

Definition request_of (h : euint64) (w : World) : address :=
  default 0 (_withdrawRequests w !! h).

Definition set_stake (staker : address) (p : StakePosition) (w : World) : World :=
  {| _stakes := <[staker := p]> (_stakes w);
     _withdrawRequests := _withdrawRequests w;
     balance := balance w; rewardCoin := rewardCoin w; log := log w |}.

Definition delete_stake (staker : address) (w : World) : World :=
  {| _stakes := delete staker (_stakes w);
     _withdrawRequests := _withdrawRequests w;
     balance := balance w; rewardCoin := rewardCoin w; log := log w |}.

Definition set_request (h : euint64) (a : address) (w : World) : World :=
  {| _stakes := _stakes w;
     _withdrawRequests := <[h := a]> (_withdrawRequests w);
     balance := balance w; rewardCoin := rewardCoin w; log := log w |}.

Definition delete_request (h : euint64) (w : World) : World :=
  {| _stakes := _stakes w;
     _withdrawRequests := delete h (_withdrawRequests w);
     balance := balance w; rewardCoin := rewardCoin w; log := log w |}.

Definition set_balance (b : Z) (w : World) : World :=
  {| _stakes := _stakes w; _withdrawRequests := _withdrawRequests w;
     balance := b; rewardCoin := rewardCoin w; log := log w |}.

Definition set_rewardCoin (c : RewardCoin) (w : World) : World :=
  {| _stakes := _stakes w; _withdrawRequests := _withdrawRequests w;
     balance := balance w; rewardCoin := c; log := log w |}.

Definition record (e : Effect) (w : World) : World :=
  {| _stakes := _stakes w; _withdrawRequests := _withdrawRequests w;
     balance := balance w; rewardCoin := rewardCoin w; log := e :: log w |}.

(** ** The state-and-revert monad *)

Inductive Result (A : Type) : Type :=
  | Ok (a : A)
  | Revert (e : Error).
Arguments Ok {A} a.
Arguments Revert {A} e.

Definition M (A : Type) : Type := World -> Result (A * World).

Global Instance M_ret : MRet M := fun A a w => Ok (a, w).
Global Instance M_bind : MBind M := fun A B f m w =>
  match m w with
  | Ok (a, w') => f a w'
  | Revert e => Revert e
  end.

Definition revert {A : Type} (e : Error) : M A := fun _ => Revert e.
Definition gets {A : Type} (f : World -> A) : M A := fun w => Ok (f w, w).
Definition modify (f : World -> World) : M unit := fun w => Ok (tt, f w).
Definition emit (e : Effect) : M unit := modify (record e).

(** [if (c) revert E();] *)
Definition revert_if (c : bool) (e : Error) : M unit :=
  if c then revert e else mret tt.

(** Checked [+] on [uint64] and checked [*] on [uint256]. *)
Definition checked_add64 (x y : Z) : M Z :=
  if UINT64_MAX <? x + y then revert Panic else mret (x + y).
Definition checked_mul256 (x y : Z) : M Z :=
  if UINT256_MAX <? x * y then revert Panic else mret (x * y).

(** ** RewardCoin *)

Definition RewardCoin_constructor (msg_sender : address) : RewardCoin :=
  {| owner := msg_sender; minter := 0; minted := [] |}.

Definition onlyOwner (msg_sender : address) : M unit :=
  o ← gets (fun w => owner (rewardCoin w));
  revert_if (negb (msg_sender =? o)) Unauthorized.

Definition onlyMinter (msg_sender : address) : M unit :=
  m ← gets (fun w => minter (rewardCoin w));
  revert_if (negb (msg_sender =? m)) Unauthorized.

Definition setMinter (msg_sender newMinter : address) : M unit :=
  onlyOwner msg_sender;;
  revert_if (newMinter =? 0) InvalidAddress;;
  modify (fun w => set_rewardCoin
    {| owner := owner (rewardCoin w); minter := newMinter;
       minted := minted (rewardCoin w) |} w);;
  emit (MinterUpdated newMinter).

Definition transferOwnership (msg_sender newOwner : address) : M unit :=
  onlyOwner msg_sender;;
  revert_if (newOwner =? 0) InvalidAddress;;
  o ← gets (fun w => owner (rewardCoin w));
  emit (OwnershipTransferred o newOwner);;
  modify (fun w => set_rewardCoin
    {| owner := newOwner; minter := minter (rewardCoin w);
       minted := minted (rewardCoin w) |} w).

(** [ERC7984._mint(to, encryptedAmount)], kept as a record of the call. *)
Definition _mint (to : address) (encryptedAmount : euint64) : M unit :=
  modify (fun w => set_rewardCoin
    {| owner := owner (rewardCoin w); minter := minter (rewardCoin w);
       minted := (to, encryptedAmount) :: minted (rewardCoin w) |} w).

(** ** DarkPoolStaking *)

Definition REWARD_PER_ETH : Z := 1000 * 10 ^ 6.

(** The value of [(uint256(clearAmount) * REWARD_PER_ETH) / 1e18]. *)
Definition rewardAmount (clearAmount : Z) : Z :=
  (clearAmount * REWARD_PER_ETH) / 10 ^ 18.

(** What the code at the payee does with the call that carries the value:
    it reverts ([None]), or returns and leaves the world as its own calls
    made it. *)
Abbreviation Recipient := (World -> option World) (only parsing).

(** [payable(to).call{value: value}("")]: fails without running the payee
    when the balance does not cover the value; a reverting payee undoes
    the transfer. *)
Definition call_value (to : address) (value : Z) (payee : Recipient) : M bool :=
  fun w =>
    if balance w <? value then Ok (false, w)
    else
      match payee (record (NativeTransfer to value)
                     (set_balance (balance w - value) w)) with
      | Some w' => Ok (true, w')
      | None => Ok (false, w)
      end.

Section Staking.

(** [FHE.asEuint64]: the handle of the trivial encryption of a clear value. *)
Variable asEuint64 : Z -> euint64.
(** [FHE.checkSignatures] on one handle and its claimed clear value:
    [true] when it returns, [false] when it reverts. *)
Variable checkSignatures : euint64 -> Z -> bytes -> bool.
(** [address(this)] of the staking contract. *)
Variable this : address.

(** [RewardCoin.mint], here for its use of [FHE.asEuint64]. *)
Definition mint (msg_sender to : address) (amount' : Z) : M unit :=
  onlyMinter msg_sender;;
  revert_if (to =? 0) InvalidAddress;;
  let encryptedAmount := asEuint64 amount' in
  _mint to encryptedAmount.

(** The constructor of the staking contract; [coin] is the storage of the
    RewardCoin deployed at [rewardCoinAddress], and [funds] the native
    value that the address of the new contract holds already (the
    constructor is not payable and does not touch it). *)
Definition constructor (rewardCoinAddress : address) (coin : RewardCoin)
    (funds : Z) : Result World :=
  if rewardCoinAddress =? 0 then Revert InvalidAddress
  else Ok {| _stakes := ∅; _withdrawRequests := ∅; balance := funds;
             rewardCoin := coin; log := [] |}.

(** A payable function holds the attached value from its first statement. *)
Definition payable (msg_value : Z) : M unit :=
  modify (fun w => set_balance (balance w + msg_value) w).

Definition stake (msg_sender : address) (msg_value block_timestamp : Z)
    (lockDurationSeconds : Z) : M unit :=
  payable msg_value;;
  revert_if ((msg_value =? 0) || (UINT64_MAX <? msg_value)) InvalidAmount;;
  revert_if (lockDurationSeconds =? 0) InvalidDuration;;
  position ← gets (stake_of msg_sender);
  revert_if (active position) ActiveStakeExists;;
  unlockTimestamp' ← checked_add64 (to_uint64 block_timestamp) lockDurationSeconds;
  let encryptedAmount := asEuint64 (to_uint64 msg_value) in
  modify (set_stake msg_sender
    {| amount := encryptedAmount; unlockTimestamp := unlockTimestamp';
       active := true; withdrawRequested := false |});;
  emit (FHE_allow encryptedAmount this);;
  emit (FHE_allow encryptedAmount msg_sender);;
  emit (Staked msg_sender (to_uint64 msg_value) unlockTimestamp').

Definition requestWithdraw (msg_sender : address) (block_timestamp : Z)
  : M unit :=
  position ← gets (stake_of msg_sender);
  revert_if (negb (active position)) NoActiveStake;;
  revert_if (withdrawRequested position) WithdrawAlreadyRequested;;
  revert_if (block_timestamp <? unlockTimestamp position) WithdrawNotReady;;
  modify (set_stake msg_sender
    {| amount := amount position;
       unlockTimestamp := unlockTimestamp position;
       active := active position; withdrawRequested := true |});;
  emit (FHE_makePubliclyDecryptable (amount position));;
  pending ← gets (request_of (amount position));
  revert_if (negb (pending =? 0)) InvalidWithdrawRequest;;
  modify (set_request (amount position) msg_sender);;
  emit (WithdrawRequested msg_sender (amount position)).

Definition finalizeWithdraw (payee : Recipient) (msg_sender : address)
    (amount' : euint64) (clearAmount : Z) (decryptionProof : bytes)
  : M unit :=
  staker ← gets (request_of amount');
  revert_if (staker =? 0) InvalidWithdrawRequest;;
  position ← gets (stake_of staker);
  revert_if (negb (active position) || negb (withdrawRequested position))
    InvalidWithdrawRequest;;
  revert_if (negb (checkSignatures amount' clearAmount decryptionProof))
    InvalidSignatures;;
  product ← checked_mul256 clearAmount REWARD_PER_ETH;
  let rewardAmount' := product / 10 ^ 18 in
  revert_if (UINT64_MAX <? rewardAmount') RewardOverflow;;
  modify (delete_request amount');;
  modify (delete_stake staker);;
  success ← call_value staker clearAmount payee;
  revert_if (negb success) TransferFailed;;
  mint this staker (to_uint64 rewardAmount');;
  emit (WithdrawFinalized staker clearAmount (to_uint64 rewardAmount')).

Definition getStake (staker : address) (w : World)
  : euint64 * Z * bool * bool :=
  let position := stake_of staker w in
  (amount position, unlockTimestamp position, active position,
   withdrawRequested position).

Definition canWithdraw (staker : address) (block_timestamp : Z) (w : World)
  : bool :=
  let position := stake_of staker w in
  active position && (unlockTimestamp position <=? block_timestamp)
    && negb (withdrawRequested position).

Definition receive (msg_value : Z) : M unit :=
  payable msg_value;;
  revert InvalidAmount.

End Staking.

(** ** The worlds the entry points end in

    The entry points go through their checks and then write; these are
    the worlds they leave when every check has passed.  The lemmas
    [stake_cases], [requestWithdraw_cases] and [finalizeWithdraw_cases]
    below prove that the code computes them. *)

Section Outcomes.

Variable asEuint64 : Z -> euint64.
Variable this : address.

(** The world after a stake that passed its checks. *)
Definition staked (msg_sender : address) (msg_value unlock : Z) (w : World)
  : World :=
  let h := asEuint64 (to_uint64 msg_value) in
  record (Staked msg_sender (to_uint64 msg_value) unlock)
    (record (FHE_allow h msg_sender)
       (record (FHE_allow h this)
          (set_stake msg_sender
             {| amount := h; unlockTimestamp := unlock; active := true;
                withdrawRequested := false |}
             (set_balance (balance w + msg_value) w)))).

(** The world after a withdrawal request that passed its checks. *)
Definition requested (msg_sender : address) (w : World) : World :=
  let position := stake_of msg_sender w in
  record (WithdrawRequested msg_sender (amount position))
    (set_request (amount position) msg_sender
       (record (FHE_makePubliclyDecryptable (amount position))
          (set_stake msg_sender
             {| amount := amount position;
                unlockTimestamp := unlockTimestamp position;
                active := active position; withdrawRequested := true |}
             w))).

(** The world the payee of a settlement is called in, and the world
    after the mint and the event that follow its return. *)
Definition settled (amount' : euint64) (clearAmount : Z) (w : World) : World :=
  let staker := request_of amount' w in
  record (NativeTransfer staker clearAmount)
    (set_balance (balance w - clearAmount)
       (delete_stake staker (delete_request amount' w))).

Definition rewarded (staker : address) (clearAmount : Z) (w : World) : World :=
  record (WithdrawFinalized staker clearAmount (rewardAmount clearAmount))
    (set_rewardCoin
       {| owner := owner (rewardCoin w); minter := minter (rewardCoin w);
          minted := (staker, asEuint64 (rewardAmount clearAmount))
                      :: minted (rewardCoin w) |} w).

End Outcomes.

(** ** Transactions *)

(** Native value that reaches the staking contract without running its
    code (a self-destructing contract, a block reward): it is added to
    the balance and nothing can refuse it. *)
Definition force_value (value : Z) : M unit :=
  modify (fun w => set_balance (balance w + value) w).

(** What the outside can do to the two contracts: call an external
    function of either, or force value into the staking contract.  The
    payee of [finalizeWithdraw] is arbitrary code: it is given by whether
    it [accepts] the value and by what it does to the contracts before it
    returns ([reentrant]). *)
#[warnings="-register-all"] Inductive Call : Type :=
  | Stake (msg_sender : address) (msg_value lockDurationSeconds : Z)
  | RequestWithdraw (msg_sender : address)
  | FinalizeWithdraw (msg_sender : address) (amount' : euint64)
      (clearAmount : Z) (decryptionProof : bytes)
      (accepts : bool) (reentrant : list Call)
  | Receive (msg_sender : address) (msg_value : Z)
  | SetMinter (msg_sender newMinter : address)
  | TransferOwnership (msg_sender newOwner : address)
  | Mint (msg_sender to : address) (amount' : Z)
  | Forced (value : Z).

(** A caller that handles the failure of a call it makes goes on from the
    state before that call. *)
Definition attempt (m : M unit) (w : World) : World :=
  match m w with
  | Ok (_, w') => w'
  | Revert _ => w
  end.

(** The calls a payee makes, one after the other, each of them handled. *)
Definition run_calls (step : Call -> M unit) : list Call -> World -> World :=
  fix run (cs : list Call) (w : World) : World :=
    match cs with
    | [] => w
    | c :: cs' => run cs' (attempt (step c) w)
    end.

Definition payee_of (step : Call -> M unit) (accepts : bool)
    (reentrant : list Call) : Recipient :=
  fun w => if accepts then Some (run_calls step reentrant w) else None.

(** The code can be called by any account but [address(0)], with unsigned
    arguments of the declared widths. *)
Fixpoint valid_call (c : Call) : bool :=
  match c with
  | Stake msg_sender msg_value lockDurationSeconds =>
      negb (msg_sender =? 0) && (0 <=? msg_value) && (msg_value <=? UINT256_MAX)
        && (0 <=? lockDurationSeconds) && (lockDurationSeconds <=? UINT64_MAX)
  | RequestWithdraw msg_sender => negb (msg_sender =? 0)
  | FinalizeWithdraw msg_sender _ clearAmount _ _ reentrant =>
      negb (msg_sender =? 0) && (0 <=? clearAmount)
        && (clearAmount <=? UINT64_MAX) && forallb valid_call reentrant
  | Receive msg_sender msg_value =>
      negb (msg_sender =? 0) && (0 <=? msg_value) && (msg_value <=? UINT256_MAX)
  | SetMinter msg_sender _ => negb (msg_sender =? 0)
  | TransferOwnership msg_sender _ => negb (msg_sender =? 0)
  | Mint msg_sender _ amount' =>
      negb (msg_sender =? 0) && (0 <=? amount') && (amount' <=? UINT64_MAX)
  | Forced value => (0 <=? value) && (value <=? UINT256_MAX)
  end.

Section Execution.

Variable asEuint64 : Z -> euint64.
Variable checkSignatures : euint64 -> Z -> bytes -> bool.
Variable this : address.

(** All calls of one transaction see the same [block.timestamp]. *)
Fixpoint exec (block_timestamp : Z) (c : Call) : M unit :=
  match c with
  | Stake msg_sender msg_value lockDurationSeconds =>
      stake asEuint64 this msg_sender msg_value block_timestamp
        lockDurationSeconds
  | RequestWithdraw msg_sender => requestWithdraw msg_sender block_timestamp
  | FinalizeWithdraw msg_sender amount' clearAmount decryptionProof
      accepts reentrant =>
      finalizeWithdraw asEuint64 checkSignatures this
        (payee_of (exec block_timestamp) accepts reentrant)
        msg_sender amount' clearAmount decryptionProof
  | Receive _ msg_value => receive msg_value
  | SetMinter msg_sender newMinter => setMinter msg_sender newMinter
  | TransferOwnership msg_sender newOwner =>
      transferOwnership msg_sender newOwner
  | Mint msg_sender to amount' => mint asEuint64 msg_sender to amount'
  | Forced value => force_value value
  end.

(** A transaction: the state after it and the error it reverted with, if
    any.  A reverted transaction leaves the state it started from. *)
Definition transact (block_timestamp : Z) (c : Call) (w : World)
  : World * option Error :=
  match exec block_timestamp c w with
  | Ok (_, w') => (w', None)
  | Revert e => (w, Some e)
  end.

(** Deployment, then any transactions at any block times. *)
Inductive reachable : World -> Prop :=
  | reachable_deploy rewardCoinAddress coin funds w :
      0 <= funds ->
      constructor rewardCoinAddress coin funds = Ok w -> reachable w
  | reachable_transact block_timestamp c w :
      reachable w -> valid_call c = true ->
      reachable
        (fst (transact block_timestamp c w)).

End Execution.

(** ** Properties of worlds and computations *)

Definition requested_implies_active (w : World) : Prop :=
  forall a : address,
    withdrawRequested (stake_of a w) = true -> active (stake_of a w) = true.

(** An account other than [address(0)] is the value of the index at a
    handle exactly when its position is active, requested and holds that
    handle. *)
Definition pending_iff_requested (w : World) : Prop :=
  forall (h : euint64) (a : address), a <> 0 ->
    request_of h w = a <->
    active (stake_of a w) = true /\ withdrawRequested (stake_of a w) = true
    /\ amount (stake_of a w) = h.

(** A computation that, when it returns, has only added to the log. *)
Definition log_grows {A : Type} (m : M A) : Prop :=
  forall w a w', m w = Ok (a, w') -> log w `suffix_of` log w'.

(** ** The deployment script

    [deploy/deploy.ts] deploys RewardCoin, deploys DarkPoolStaking with
    the RewardCoin's address, and has the deployer call [setMinter] with
    the staking contract's address; a step that reverts ends the script.
    The addresses the two contracts get, and the [funds] the staking
    contract's address holds already, are the chain's. *)
Definition deploy_darkpool_staking
    (deployer rewardCoinAddress stakingAddress : address) (funds : Z)
  : Result World :=
  let rewardCoinDeployment := RewardCoin_constructor deployer in
  match constructor rewardCoinAddress rewardCoinDeployment funds with
  | Revert e => Revert e
  | Ok stakingDeployment =>
      match setMinter deployer stakingAddress stakingDeployment with
      | Ok (_, w) => Ok w
      | Revert e => Revert e
      end
  end.

(** ** What the log adds up to *)

Section Histories.

Variable asEuint64 : Z -> euint64.

(** The reward mints that the [WithdrawFinalized] events of a log stand
    for, newest first. *)
Fixpoint rewards_of (l : list Effect) : list (address * euint64) :=
  match l with
  | [] => []
  | WithdrawFinalized staker _ rewardAmount' :: l' =>
      (staker, asEuint64 rewardAmount') :: rewards_of l'
  | _ :: l' => rewards_of l'
  end.

End Histories.



(** Every [WithdrawFinalized] event of a log carries the reward of its
    amount. *)
Definition rewards_as_computed (l : list Effect) : Prop :=
  Forall (fun e => match e with
                   | WithdrawFinalized _ amount' rewardAmount' =>
                       rewardAmount' = rewardAmount amount'
                   | _ => True
                   end) l.

(** What a transaction adds to the log and to the recorded mints. *)
Definition adds (l : list Effect) (m : list (address * euint64))
    (w w' : World) : Prop :=
  log w' = l ++ log w
  /\ minted (rewardCoin w') = m ++ minted (rewardCoin w).



Fixpoint mints_directly (c : Call) : bool :=
  match c with
  | Mint _ _ _ => true
  | FinalizeWithdraw _ _ _ _ _ reentrant => existsb mints_directly reentrant
  | _ => false
  end.

(** Whether a call, or a call nested in it, is a [setMinter] or a
    [transferOwnership] sent by [who]. *)
Fixpoint administers (who : address) (c : Call) : bool :=
  match c with
  | SetMinter msg_sender _ => msg_sender =? who
  | TransferOwnership msg_sender _ => msg_sender =? who
  | FinalizeWithdraw _ _ _ _ _ reentrant => existsb (administers who) reentrant
  | _ => false
  end.

Definition is_FinalizeWithdraw (c : Call) : bool :=
  match c with
  | FinalizeWithdraw _ _ _ _ _ _ => true
  | _ => false
  end.

(** A mock of the FHE library: a handle is its clear value, a proof
    verifies when the clear value is the handle. *)
Module Mock.
Definition asEuint64 (v : Z) : euint64 := v.
Definition checkSignatures (h : euint64) (clear : Z) (_ : bytes) : bool :=
  h =? clear.
Definition this : address := 1000.
Definition deployer : address := 1.
Definition alice : address := 11.
Definition bob : address := 12.
Definition carol : address := 13.
(** Code at a payee that reads the sender of the transaction and takes
    the payout only when that is Bob. *)
Definition for_bob_only (tx_origin : address) : World -> option World :=
  fun w => if tx_origin =? bob then Some w else None.
Definition genesis : World :=
  {| _stakes := ∅; _withdrawRequests := ∅; balance := 0;
     rewardCoin := {| owner := deployer; minter := this; minted := [] |};
     log := [] |}.
Definition transact := transact asEuint64 checkSignatures this.
Definition after (w : World) (txs : list (Z * Call)) : World :=
  fold_left (fun w tx => fst (transact (fst tx) (snd tx) w)) txs w.
(** Two ether, which is also its own handle here. *)
Definition deposit : Z := 2 * 10 ^ 18.
(** Alice has staked two ether at time 100 for 10 seconds. *)
Definition staked_world : World :=
  after genesis [(100, Stake alice deposit 10)].
(** Then she has requested the withdrawal at time 110. *)
Definition pending_world : World :=
  after staked_world [(110, RequestWithdraw alice)].
(** The same, on a ledger deployed before [setMinter] has named it. *)
Definition unnamed_world : World :=
  after {| _stakes := ∅; _withdrawRequests := ∅; balance := 0;
           rewardCoin := RewardCoin_constructor deployer; log := [] |}
    [(100, Stake alice deposit 10); (110, RequestWithdraw alice)].
(** Bob has staked the same amount as Alice, and Alice has requested. *)
Definition crowded_world : World :=
  after genesis [(100, Stake alice deposit 10); (100, Stake bob deposit 10);
                 (110, RequestWithdraw alice)].
(** Bob relays Alice's settlement: the payout and the reward are Alice's. *)
Definition relayed_world : World :=
  fst (transact 111
         (FinalizeWithdraw bob deposit deposit [] true [])
         pending_world).
End Mock.

(** * Properties *)

(** ** Arithmetic of the reward *)

Lemma UINT64_MAX_eq : UINT64_MAX = 18446744073709551615.
Proof. reflexivity. Qed.

Lemma to_uint64_id (x : Z) : is_uint64 x -> to_uint64 x = x.
Proof.
  unfold is_uint64, to_uint64. rewrite UINT64_MAX_eq. intros Hx.
  apply Z.mod_small. lia.
Qed.

Lemma rewardAmount_mono (a b : Z) : a <= b -> rewardAmount a <= rewardAmount b.
Proof.
  intros Hab. unfold rewardAmount.
  apply Z.div_le_mono; [reflexivity|].
  apply Z.mul_le_mono_nonneg_r; [discriminate|assumption].
Qed.

Lemma rewardAmount_nonneg (a : Z) : 0 <= a -> 0 <= rewardAmount a.
Proof. intros Ha. change 0 with (rewardAmount 0) at 1. now apply rewardAmount_mono. Qed.

Lemma rewardAmount_uint64 (clearAmount : Z) :
  is_uint64 clearAmount -> is_uint64 (rewardAmount clearAmount).
Proof.
  intros [Hlo Hhi]. split; [now apply rewardAmount_nonneg|].
  transitivity (rewardAmount UINT64_MAX); [now apply rewardAmount_mono|].
  vm_compute. discriminate.
Qed.

Lemma product_fits (clearAmount : Z) :
  is_uint64 clearAmount ->
  (UINT256_MAX <? clearAmount * REWARD_PER_ETH) = false.
Proof.
  intros [Hlo Hhi]. apply Z.ltb_ge.
  transitivity (UINT64_MAX * REWARD_PER_ETH).
  - apply Z.mul_le_mono_nonneg_r; [discriminate|assumption].
  - vm_compute. discriminate.
Qed.

(** ** Each entry point as one case analysis *)

Ltac unfold_M :=
  unfold emit, gets, modify, revert_if, revert;
  unfold mbind, M_bind, mret, M_ret; cbv beta iota.
Ltac unfold_M_in H :=
  unfold emit, gets, modify, revert_if, revert in H;
  unfold mbind, M_bind, mret, M_ret in H; cbv beta iota in H.

Section EntryPoints.

Variable asEuint64 : Z -> euint64.
Variable checkSignatures : euint64 -> Z -> bytes -> bool.
Variable this : address.

Lemma stake_cases msg_sender msg_value block_timestamp lockDurationSeconds w :
  stake asEuint64 this msg_sender msg_value block_timestamp
    lockDurationSeconds w =
  if (msg_value =? 0) || (UINT64_MAX <? msg_value) then Revert InvalidAmount
  else if lockDurationSeconds =? 0 then Revert InvalidDuration
  else if active (stake_of msg_sender w) then Revert ActiveStakeExists
  else if UINT64_MAX <? to_uint64 block_timestamp + lockDurationSeconds
  then Revert Panic
  else Ok (tt, staked asEuint64 this msg_sender msg_value
                 (to_uint64 block_timestamp + lockDurationSeconds) w).
Proof.
  unfold stake, payable, checked_add64. unfold_M.
  destruct ((msg_value =? 0) || (UINT64_MAX <? msg_value)); [reflexivity|].
  destruct (lockDurationSeconds =? 0); [reflexivity|].
  change (stake_of msg_sender (set_balance (balance w + msg_value) w))
    with (stake_of msg_sender w).
  destruct (active (stake_of msg_sender w)); [reflexivity|].
  destruct (UINT64_MAX <? to_uint64 block_timestamp + lockDurationSeconds);
    reflexivity.
Qed.

Lemma requestWithdraw_cases msg_sender block_timestamp w :
  requestWithdraw msg_sender block_timestamp w =
  let position := stake_of msg_sender w in
  if negb (active position) then Revert NoActiveStake
  else if withdrawRequested position then Revert WithdrawAlreadyRequested
  else if block_timestamp <? unlockTimestamp position
  then Revert WithdrawNotReady
  else if negb (request_of (amount position) w =? 0)
  then Revert InvalidWithdrawRequest
  else Ok (tt, requested msg_sender w).
Proof.
  unfold requestWithdraw. unfold_M. cbv zeta.
  destruct (negb (active (stake_of msg_sender w))); [reflexivity|].
  destruct (withdrawRequested (stake_of msg_sender w)); [reflexivity|].
  destruct (block_timestamp <? unlockTimestamp (stake_of msg_sender w));
    [reflexivity|].
  match goal with
  | |- context [negb (request_of ?h ?w' =? 0)] =>
      change (request_of h w') with (request_of h w)
  end.
  destruct (negb (request_of (amount (stake_of msg_sender w)) w =? 0));
    reflexivity.
Qed.

Lemma finalizeWithdraw_cases (payee : Recipient) msg_sender amount'
    clearAmount decryptionProof w :
  is_uint64 clearAmount ->
  finalizeWithdraw asEuint64 checkSignatures this payee msg_sender amount'
    clearAmount decryptionProof w =
  let staker := request_of amount' w in
  let position := stake_of staker w in
  if staker =? 0 then Revert InvalidWithdrawRequest
  else if negb (active position) || negb (withdrawRequested position)
  then Revert InvalidWithdrawRequest
  else if negb (checkSignatures amount' clearAmount decryptionProof)
  then Revert InvalidSignatures
  else if balance w <? clearAmount then Revert TransferFailed
  else match payee (settled amount' clearAmount w) with
       | None => Revert TransferFailed
       | Some w' =>
           if negb (this =? minter (rewardCoin w')) then Revert Unauthorized
           else Ok (tt, rewarded asEuint64 staker clearAmount w')
       end.
Proof.
  intros Hclear. cbv zeta.
  unfold finalizeWithdraw, checked_mul256, call_value, mint, onlyMinter,
    _mint. unfold_M.
  destruct (request_of amount' w =? 0) eqn:Hstaker; [reflexivity|].
  destruct (negb (active (stake_of (request_of amount' w) w))
            || negb (withdrawRequested (stake_of (request_of amount' w) w)));
    [reflexivity|].
  destruct (negb (checkSignatures amount' clearAmount decryptionProof));
    [reflexivity|].
  rewrite (product_fits _ Hclear).
  fold (rewardAmount clearAmount).
  pose proof (rewardAmount_uint64 _ Hclear) as Hreward.
  replace (UINT64_MAX <? rewardAmount clearAmount) with false
    by (symmetry; apply Z.ltb_ge, Hreward).
  rewrite (to_uint64_id _ Hreward).
  change (balance (delete_stake (request_of amount' w)
                     (delete_request amount' w))) with (balance w).
  destruct (balance w <? clearAmount); [reflexivity|].
  fold (settled amount' clearAmount w).
  destruct (payee (settled amount' clearAmount w)) as [w'|]; [|reflexivity].
  cbn [negb].
  destruct (negb (this =? minter (rewardCoin w'))); [reflexivity|].
  reflexivity.
Qed.

End EntryPoints.

(** ** Induction over calls and the calls nested in them *)

Section CallInduction.

Variable P : Call -> Prop.
Hypothesis P_Stake : forall s v d, P (Stake s v d).
Hypothesis P_RequestWithdraw : forall s, P (RequestWithdraw s).
Hypothesis P_FinalizeWithdraw : forall s h clr pf acc cs,
  Forall P cs -> P (FinalizeWithdraw s h clr pf acc cs).
Hypothesis P_Receive : forall s v, P (Receive s v).
Hypothesis P_SetMinter : forall s m, P (SetMinter s m).
Hypothesis P_TransferOwnership : forall s o, P (TransferOwnership s o).
Hypothesis P_Mint : forall s to a, P (Mint s to a).
Hypothesis P_Forced : forall v, P (Forced v).

Fixpoint Call_nested_ind (c : Call) : P c :=
  match c with
  | Stake s v d => P_Stake s v d
  | RequestWithdraw s => P_RequestWithdraw s
  | FinalizeWithdraw s h clr pf acc cs =>
      P_FinalizeWithdraw s h clr pf acc cs
        ((fix all (cs : list Call) : Forall P cs :=
            match cs with
            | [] => @List.Forall_nil _ P
            | c :: cs' => @List.Forall_cons _ P c cs' (Call_nested_ind c) (all cs')
            end) cs)
  | Receive s v => P_Receive s v
  | SetMinter s m => P_SetMinter s m
  | TransferOwnership s o => P_TransferOwnership s o
  | Mint s to a => P_Mint s to a
  | Forced v => P_Forced v
  end.

End CallInduction.

Lemma valid_call_FinalizeWithdraw s h clr pf acc cs :
  valid_call (FinalizeWithdraw s h clr pf acc cs) = true ->
  s <> 0 /\ is_uint64 clr /\ Forall (fun c => valid_call c = true) cs.
Proof.
  cbn [valid_call]. rewrite !andb_true_iff, negb_true_iff, forallb_forall.
  intros [[[Hs Hlo] Hhi] Hcs]. split; [|split].
  - now apply Z.eqb_neq.
  - split; [now apply Z.leb_le|now apply Z.leb_le].
  - apply Forall_forall. intros c Hc. apply Hcs. now apply list_elem_of_In.
Qed.

(** A property of the world that every handled call keeps is kept by the
    calls of a payee. *)
Lemma run_calls_keeps (I : World -> Prop) (step : Call -> M unit) cs :
  Forall (fun c => forall w w', I w -> step c w = Ok (tt, w') -> I w') cs ->
  forall w, I w -> I (run_calls step cs w).
Proof.
  induction 1 as [|c cs Hc _ IH]; intros w Hw; cbn [run_calls]; [assumption|].
  apply IH. unfold attempt.
  destruct (step c w) as [[[] w']|e] eqn:Hstep; [|assumption].
  now apply (Hc w w').
Qed.

(** ** Reachable worlds, and properties of the ledger kept by every call *)

Section Reachability.

Variable asEuint64 : Z -> euint64.
Variable checkSignatures : euint64 -> Z -> bytes -> bool.
Variable this : address.

(** A property [I] of the two mappings that holds of empty mappings and
    survives the three ways the code writes them. *)
Variable I : World -> Prop.

Hypothesis I_ledger : forall w w',
  _stakes w = _stakes w' -> _withdrawRequests w = _withdrawRequests w' ->
  I w -> I w'.
Hypothesis I_empty : forall w,
  _stakes w = ∅ -> _withdrawRequests w = ∅ -> I w.
Hypothesis I_stake : forall msg_sender p w,
  msg_sender <> 0 -> active (stake_of msg_sender w) = false ->
  active p = true -> withdrawRequested p = false ->
  I w -> I (set_stake msg_sender p w).
Hypothesis I_request : forall msg_sender w,
  msg_sender <> 0 ->
  active (stake_of msg_sender w) = true ->
  withdrawRequested (stake_of msg_sender w) = false ->
  request_of (amount (stake_of msg_sender w)) w = 0 ->
  I w -> I (requested msg_sender w).
Hypothesis I_settle : forall h w,
  request_of h w <> 0 ->
  active (stake_of (request_of h w) w) = true ->
  withdrawRequested (stake_of (request_of h w) w) = true ->
  I w -> I (delete_stake (request_of h w) (delete_request h w)).

Lemma exec_keeps (c : Call) :
  valid_call c = true ->
  forall block_timestamp w w',
    I w ->
    exec asEuint64 checkSignatures this block_timestamp c w = Ok (tt, w') ->
    I w'.
Proof.
  induction c as [s v d|s|s h clr pf acc cs IH|s v|s m|s o|s to a|v]
    using Call_nested_ind; intros Hvalid t w w' Hw Hexec; cbn [exec] in Hexec.
  - (* stake *)
    rewrite stake_cases in Hexec.
    cbn [valid_call] in Hvalid. rewrite !andb_true_iff, negb_true_iff in Hvalid.
    destruct Hvalid as [[[[Hs _] _] _] _]. apply Z.eqb_neq in Hs.
    destruct ((v =? 0) || (UINT64_MAX <? v)); [discriminate|].
    destruct (d =? 0); [discriminate|].
    destruct (active (stake_of s w)) eqn:Hactive; [discriminate|].
    destruct (UINT64_MAX <? to_uint64 t + d); [discriminate|].
    injection Hexec as <-.
    eapply I_ledger; [| |apply (I_stake s); [exact Hs|exact Hactive| | |exact Hw]];
      reflexivity.
  - (* requestWithdraw *)
    rewrite requestWithdraw_cases in Hexec. cbv zeta in Hexec.
    cbn [valid_call] in Hvalid. rewrite negb_true_iff in Hvalid.
    apply Z.eqb_neq in Hvalid.
    destruct (active (stake_of s w)) eqn:Hactive; [|discriminate].
    destruct (withdrawRequested (stake_of s w)) eqn:Hrequested; [discriminate|].
    cbn [negb] in Hexec.
    destruct (t <? unlockTimestamp (stake_of s w)); [discriminate|].
    destruct (request_of (amount (stake_of s w)) w =? 0) eqn:Hfree;
      [|discriminate].
    injection Hexec as <-. apply Z.eqb_eq in Hfree.
    now apply I_request.
  - (* finalizeWithdraw *)
    apply valid_call_FinalizeWithdraw in Hvalid as (_ & Hclr & Hcs).
    rewrite (finalizeWithdraw_cases _ _ _ _ _ _ _ _ _ Hclr) in Hexec.
    cbv zeta in Hexec.
    destruct (request_of h w =? 0) eqn:Hstaker; [discriminate|].
    apply Z.eqb_neq in Hstaker.
    destruct (active (stake_of (request_of h w) w)) eqn:Hactive;
      [|discriminate].
    destruct (withdrawRequested (stake_of (request_of h w) w)) eqn:Hrequested;
      [|discriminate].
    cbn [negb orb] in Hexec.
    destruct (negb (checkSignatures h clr pf)); [discriminate|].
    destruct (balance w <? clr); [discriminate|].
    unfold payee_of in Hexec. destruct acc; [|discriminate].
    destruct (negb (this =? minter (rewardCoin _))); [discriminate|].
    injection Hexec as <-.
    apply (I_ledger (run_calls (exec asEuint64 checkSignatures this t) cs
                       (settled h clr w))); [reflexivity|reflexivity|].
    apply (run_calls_keeps I).
    + rewrite Forall_forall in IH, Hcs |- *. intros c Hc w1 w2 Hw1 Hstep.
      exact (IH c Hc (Hcs c Hc) t w1 w2 Hw1 Hstep).
    + eapply I_ledger; [| |apply (I_settle h w Hstaker Hactive Hrequested Hw)];
        reflexivity.
  - (* receive *)
    discriminate.
  - (* setMinter *)
    unfold setMinter, onlyOwner in Hexec. unfold_M_in Hexec.
    destruct (negb (s =? owner (rewardCoin w))); [discriminate|].
    destruct (m =? 0); [discriminate|].
    injection Hexec as <-. eapply I_ledger; [| |exact Hw]; reflexivity.
  - (* transferOwnership *)
    unfold transferOwnership, onlyOwner in Hexec. unfold_M_in Hexec.
    destruct (negb (s =? owner (rewardCoin w))); [discriminate|].
    destruct (o =? 0); [discriminate|].
    injection Hexec as <-. eapply I_ledger; [| |exact Hw]; reflexivity.
  - (* mint *)
    unfold mint, onlyMinter, _mint in Hexec. unfold_M_in Hexec.
    destruct (negb (s =? minter (rewardCoin w))); [discriminate|].
    destruct (to =? 0); [discriminate|].
    injection Hexec as <-. eapply I_ledger; [| |exact Hw]; reflexivity.
  - (* forced value *)
    unfold force_value in Hexec. unfold_M_in Hexec.
    injection Hexec as <-. eapply I_ledger; [| |exact Hw]; reflexivity.
Qed.

Lemma transact_keeps block_timestamp c w :
  valid_call c = true -> I w ->
  I (fst (transact asEuint64 checkSignatures this block_timestamp c w)).
Proof.
  intros Hvalid Hw. unfold transact.
  destruct (exec _ _ _ _ _ w) as [[[] w']|e] eqn:Hexec; cbn [fst];
    [|assumption].
  exact (exec_keeps c Hvalid _ _ _ Hw Hexec).
Qed.

Lemma reachable_keeps w :
  reachable asEuint64 checkSignatures this w -> I w.
Proof.
  induction 1 as [a coin funds w Hfunds Hdeploy|t c w _ IH Hvalid].
  - unfold constructor in Hdeploy. destruct (a =? 0); [discriminate|].
    injection Hdeploy as <-. now apply I_empty.
  - now apply transact_keeps.
Qed.

End Reachability.

(** ** Reading the mappings after a write *)

Lemma stake_of_ledger a w w' :
  _stakes w = _stakes w' -> stake_of a w = stake_of a w'.
Proof. unfold stake_of. now intros ->. Qed.

Lemma request_of_ledger h w w' :
  _withdrawRequests w = _withdrawRequests w' -> request_of h w = request_of h w'.
Proof. unfold request_of. now intros ->. Qed.

Lemma stake_of_set_stake a s p w :
  stake_of a (set_stake s p w) = if decide (s = a) then p else stake_of a w.
Proof.
  unfold stake_of. cbn [_stakes set_stake]. rewrite lookup_insert.
  now destruct (decide (s = a)).
Qed.

Lemma stake_of_delete_stake a s w :
  stake_of a (delete_stake s w)
  = if decide (s = a) then zero_position else stake_of a w.
Proof.
  unfold stake_of. cbn [_stakes delete_stake]. rewrite lookup_delete.
  now destruct (decide (s = a)).
Qed.

Lemma request_of_set_request h k a w :
  request_of h (set_request k a w) = if decide (k = h) then a else request_of h w.
Proof.
  unfold request_of. cbn [_withdrawRequests set_request]. rewrite lookup_insert.
  now destruct (decide (k = h)).
Qed.

Lemma request_of_delete_request h k w :
  request_of h (delete_request k w)
  = if decide (k = h) then 0 else request_of h w.
Proof.
  unfold request_of. cbn [_withdrawRequests delete_request].
  rewrite lookup_delete. now destruct (decide (k = h)).
Qed.

(** ** The log only grows *)

Lemma log_grows_bind {A B : Type} (m : M A) (f : A -> M B) :
  log_grows m -> (forall a, log_grows (f a)) -> log_grows (m ≫= f).
Proof.
  intros Hm Hf w b w'. unfold mbind, M_bind.
  destruct (m w) as [[a w1]|e] eqn:Hmw; [|discriminate].
  intros Hfw. transitivity (log w1); [exact (Hm _ _ _ Hmw)|exact (Hf _ _ _ _ Hfw)].
Qed.

Lemma log_grows_ret {A : Type} (a : A) : log_grows (mret a).
Proof. intros w a' w' [= _ <-]. reflexivity. Qed.

Lemma log_grows_revert {A : Type} (e : Error) : log_grows (revert e : M A).
Proof. intros w a w'. discriminate. Qed.

Lemma log_grows_revert_if c e : log_grows (revert_if c e).
Proof.
  unfold revert_if. destruct c; [apply log_grows_revert|apply log_grows_ret].
Qed.

Lemma log_grows_gets {A : Type} (f : World -> A) : log_grows (gets f).
Proof. intros w a w' [= _ <-]. reflexivity. Qed.

Lemma log_grows_modify (f : World -> World) :
  (forall w, log w `suffix_of` log (f w)) -> log_grows (modify f).
Proof. intros Hf w a w' [= _ Hw]. rewrite <- Hw. apply Hf. Qed.

Lemma log_grows_emit e : log_grows (emit e).
Proof. apply log_grows_modify. intros w. apply suffix_cons_r. reflexivity. Qed.

Lemma log_grows_call_value to value (payee : Recipient) :
  (forall w w', payee w = Some w' -> log w `suffix_of` log w') ->
  log_grows (call_value to value payee).
Proof.
  intros Hpayee w b w'. unfold call_value.
  destruct (balance w <? value); [intros [= _ <-]; reflexivity|].
  destruct (payee _) as [w1|] eqn:Hcall; intros [= _ <-]; [|reflexivity].
  apply Hpayee in Hcall. cbn [log record set_balance] in Hcall.
  transitivity (NativeTransfer to value :: log w); [|exact Hcall].
  apply suffix_cons_r. reflexivity.
Qed.

Create HintDb log_grows.
#[global] Hint Resolve log_grows_ret log_grows_revert log_grows_revert_if
  log_grows_gets log_grows_emit : log_grows.

Ltac log_grows :=
  repeat first
    [ apply log_grows_bind; [|intros ?]
    | solve [auto with log_grows]
    | apply log_grows_modify; intros ?; reflexivity ].

(** ** The reward formula *)

(** C6: the reward [(clearAmount * 1000e6) / 1e18], with the floor division
    of unsigned integers, is a function of the clear amount alone; it is
    monotonic (for [a < b], the reward of [a] is at most the reward of [b]),
    the reward of [0] is [0], and it is the value the checked 256-bit
    arithmetic of the code yields on every 64-bit clear amount. *)
Theorem rewardAmount_monotonic_zero :
  (forall a b : Z, a < b -> rewardAmount a <= rewardAmount b)
  /\ rewardAmount 0 = 0
  /\ (forall clearAmount w, is_uint64 clearAmount ->
        (product ← checked_mul256 clearAmount REWARD_PER_ETH;
         mret (product / 10 ^ 18)) w
        = Ok (rewardAmount clearAmount, w)).
Proof.
  split; [|split].
  - intros a b Hab. apply rewardAmount_mono. lia.
  - reflexivity.
  - intros clearAmount w Hclear. unfold checked_mul256. unfold_M.
    rewrite (product_fits _ Hclear). reflexivity.
Qed.

Lemma rewardAmount_monotonic_zero_witness :
  rewardAmount (10 ^ 18) <= rewardAmount (3 * 10 ^ 18).
Proof.
  exact (proj1 rewardAmount_monotonic_zero (10 ^ 18) (3 * 10 ^ 18) eq_refl).
Defined.

(** The truncation boundary: below [10^9] units of deposit the reward is
    [0]; one ether of deposit earns [10^9] units. *)
Example rewardAmount_boundary :
  rewardAmount (10 ^ 9 - 1) = 0 /\ rewardAmount (10 ^ 9) = 1
  /\ rewardAmount (10 ^ 18) = 10 ^ 9.
Proof. repeat split. Qed.

Section Claims.

Variable asEuint64 : Z -> euint64.
Variable checkSignatures : euint64 -> Z -> bytes -> bool.
Variable this : address.

(** C9: on a 64-bit clear amount the reward never exceeds [2^64 - 1], so
    no call of [finalizeWithdraw], whatever the state, the arguments and
    the payee, fails with [RewardOverflow]. *)
Theorem RewardOverflow_unreachable (clearAmount : Z) :
  is_uint64 clearAmount ->
  rewardAmount clearAmount <= UINT64_MAX
  /\ forall (payee : Recipient) msg_sender amount' decryptionProof w,
       finalizeWithdraw asEuint64 checkSignatures this payee msg_sender amount' clearAmount
         decryptionProof w <> Revert RewardOverflow.
Proof.
  intros Hclear. split; [apply (rewardAmount_uint64 _ Hclear)|].
  intros payee msg_sender amount' decryptionProof w.
  rewrite (finalizeWithdraw_cases _ _ _ _ _ _ _ _ _ Hclear). cbv zeta.
  repeat match goal with
         | |- (if ?b then _ else _) <> _ => destruct b
         | |- match ?o with Some _ => _ | None => _ end <> _ => destruct o
         end; discriminate.
Qed.

(** A stake that meets its preconditions and does not overflow the
    64-bit unlock time goes through. *)
Lemma stake_succeeds msg_sender msg_value block_timestamp lockDurationSeconds w :
  active (stake_of msg_sender w) = false ->
  0 < msg_value <= UINT64_MAX -> 0 < lockDurationSeconds ->
  to_uint64 block_timestamp + lockDurationSeconds <= UINT64_MAX ->
  stake asEuint64 this msg_sender msg_value block_timestamp lockDurationSeconds w
  = Ok (tt, staked asEuint64 this msg_sender msg_value
              (to_uint64 block_timestamp + lockDurationSeconds) w).
Proof.
  intros Hactive [Hpos Hfit] Hlock Hunlock. rewrite stake_cases, Hactive.
  replace (msg_value =? 0) with false by (symmetry; apply Z.eqb_neq; lia).
  replace (UINT64_MAX <? msg_value) with false by (symmetry; apply Z.ltb_ge; lia).
  replace (lockDurationSeconds =? 0) with false
    by (symmetry; apply Z.eqb_neq; lia).
  replace (UINT64_MAX <? to_uint64 block_timestamp + lockDurationSeconds)
    with false by (symmetry; apply Z.ltb_ge; lia).
  reflexivity.
Qed.

(** [canWithdraw] tells when [requestWithdraw] passes its first three
    checks: the request then goes through unless the handle is taken. *)
Lemma canWithdraw_requestWithdraw staker block_timestamp w :
  canWithdraw staker block_timestamp w = true ->
  requestWithdraw staker block_timestamp w
  = if request_of (amount (stake_of staker w)) w =? 0
    then Ok (tt, requested staker w)
    else Revert InvalidWithdrawRequest.
Proof.
  unfold canWithdraw. cbv zeta. rewrite !andb_true_iff, negb_true_iff.
  intros [[Hactive Hunlock] Hnot]. apply Z.leb_le in Hunlock.
  rewrite requestWithdraw_cases. cbv zeta. rewrite Hactive, Hnot. cbn [negb].
  replace (block_timestamp <? unlockTimestamp (stake_of staker w)) with false
    by (symmetry; apply Z.ltb_ge; lia).
  now destruct (request_of (amount (stake_of staker w)) w =? 0).
Qed.

(** C7: for a caller with no active position, a successful
    [stake(lockDuration)] carrying a deposit that is positive and fits 64
    bits, with a positive lock duration, at a block whose timestamp is a
    64-bit value as in the block header, followed at once by
    [getStake(caller)], returns the handle of the deposit, an unlock time
    equal to the timestamp plus the lock duration, [active = true] and
    [withdrawRequested = false]. *)
Theorem stake_then_getStake msg_sender msg_value block_timestamp
    lockDurationSeconds w w' :
  active (stake_of msg_sender w) = false ->
  0 < msg_value <= UINT64_MAX -> 0 < lockDurationSeconds ->
  is_uint64 block_timestamp ->
  stake asEuint64 this msg_sender msg_value block_timestamp lockDurationSeconds w
    = Ok (tt, w') ->
  getStake msg_sender w'
  = (asEuint64 msg_value, block_timestamp + lockDurationSeconds, true, false).
Proof.
  intros Hactive Hvalue Hlock Htime Hstake.
  rewrite stake_cases in Hstake.
  destruct ((msg_value =? 0) || (UINT64_MAX <? msg_value)); [discriminate|].
  destruct (lockDurationSeconds =? 0); [discriminate|].
  destruct (active (stake_of msg_sender w)); [discriminate|].
  destruct (UINT64_MAX <? to_uint64 block_timestamp + lockDurationSeconds);
    [discriminate|].
  injection Hstake as <-.
  unfold getStake, staked, stake_of. cbn [_stakes record set_stake].
  rewrite lookup_insert_eq. cbn [default amount unlockTimestamp active
    withdrawRequested].
  rewrite (to_uint64_id block_timestamp Htime).
  rewrite (to_uint64_id msg_value) by (unfold is_uint64; lia).
  reflexivity.
Qed.

(** An unknown handle is turned away at the first check. *)
Lemma unknown_handle_rejected (payee : Recipient) msg_sender amount'
    clearAmount decryptionProof w :
  request_of amount' w = 0 ->
  finalizeWithdraw asEuint64 checkSignatures this payee msg_sender amount'
    clearAmount decryptionProof w = Revert InvalidWithdrawRequest.
Proof.
  intros Hunknown. unfold finalizeWithdraw. unfold_M.
  rewrite Hunknown. reflexivity.
Qed.

(** C8: for a handle with no entry in the pending-withdrawal index,
    [finalizeWithdraw] fails with [InvalidWithdrawRequest] whatever the
    clear amount, the proof, the caller and the payee, and the
    transaction leaves the whole state, the two mappings included, as it
    was. *)
Theorem finalizeWithdraw_unknown_handle amount' w :
  request_of amount' w = 0 ->
  (forall (payee : Recipient) msg_sender clearAmount decryptionProof,
     finalizeWithdraw asEuint64 checkSignatures this payee msg_sender amount'
       clearAmount decryptionProof w
     = Revert InvalidWithdrawRequest)
  /\ (forall block_timestamp msg_sender clearAmount decryptionProof accepts
        reentrant,
        let after :=
          transact asEuint64 checkSignatures this block_timestamp
            (FinalizeWithdraw msg_sender amount' clearAmount decryptionProof
               accepts reentrant) w in
        after = (w, Some InvalidWithdrawRequest)
        /\ _stakes (fst after) = _stakes w
        /\ _withdrawRequests (fst after) = _withdrawRequests w).
Proof.
  intros Hunknown. split.
  - intros payee msg_sender clearAmount decryptionProof.
    now apply unknown_handle_rejected.
  - intros t msg_sender clearAmount decryptionProof accepts reentrant.
    cbv zeta. unfold transact. cbn [exec].
    rewrite (unknown_handle_rejected _ _ _ _ _ _ Hunknown). auto.
Qed.

(** [exec] grows the log, whatever the call and the calls nested in it. *)
Lemma exec_log_grows (c : Call) block_timestamp :
  log_grows (exec asEuint64 checkSignatures this block_timestamp c).
Proof.
  induction c as [s v d|s|s h clr pf acc cs IH|s v|s m|s o|s to a|v]
    using Call_nested_ind; cbn [exec].
  - unfold stake, payable, checked_add64. log_grows.
    destruct (UINT64_MAX <? _); auto with log_grows.
  - unfold requestWithdraw. log_grows.
  - unfold finalizeWithdraw, checked_mul256, mint, onlyMinter, _mint.
    log_grows.
    + destruct (UINT256_MAX <? _); auto with log_grows.
    + apply log_grows_call_value. unfold payee_of. intros w w'.
      destruct acc; [intros [= <-]|discriminate].
      apply (run_calls_keeps (fun w1 => log w `suffix_of` log w1));
        [|reflexivity].
      rewrite Forall_forall in IH |- *. intros c Hc w1 w2 Hw1 Hstep.
      transitivity (log w1); [exact Hw1|exact (IH c Hc _ _ _ Hstep)].
  - unfold receive, payable. log_grows.
  - unfold setMinter, onlyOwner. log_grows.
  - unfold transferOwnership, onlyOwner. log_grows.
  - unfold mint, onlyMinter, _mint. log_grows.
  - unfold force_value. log_grows.
Qed.

Lemma run_calls_log_grows block_timestamp cs w :
  log w `suffix_of`
    log (run_calls (exec asEuint64 checkSignatures this block_timestamp) cs w).
Proof.
  apply (run_calls_keeps (fun w1 => log w `suffix_of` log w1)); [|reflexivity].
  apply Forall_forall. intros c _ w1 w2 Hw1 Hstep.
  transitivity (log w1); [exact Hw1|exact (exec_log_grows c _ _ _ _ Hstep)].
Qed.

(** What a settlement that went through did, read off the code. *)
Lemma finalizeWithdraw_Ok block_timestamp msg_sender amount' clearAmount
    decryptionProof accepts reentrant w w' :
  is_uint64 clearAmount ->
  exec asEuint64 checkSignatures this block_timestamp
    (FinalizeWithdraw msg_sender amount' clearAmount decryptionProof accepts
       reentrant) w = Ok (tt, w') ->
  request_of amount' w <> 0
  /\ active (stake_of (request_of amount' w) w) = true
  /\ withdrawRequested (stake_of (request_of amount' w) w) = true
  /\ checkSignatures amount' clearAmount decryptionProof = true
  /\ clearAmount <= balance w
  /\ accepts = true
  /\ w' = rewarded asEuint64 (request_of amount' w) clearAmount
            (run_calls (exec asEuint64 checkSignatures this block_timestamp)
               reentrant (settled amount' clearAmount w)).
Proof.
  intros Hclear Hexec. cbn [exec] in Hexec.
  rewrite (finalizeWithdraw_cases _ _ _ _ _ _ _ _ _ Hclear) in Hexec.
  cbv zeta in Hexec.
  destruct (request_of amount' w =? 0) eqn:Hstaker; [discriminate|].
  destruct (active (stake_of (request_of amount' w) w)); [|discriminate].
  destruct (withdrawRequested (stake_of (request_of amount' w) w));
    [|discriminate].
  cbn [negb orb] in Hexec.
  destruct (checkSignatures amount' clearAmount decryptionProof);
    [|discriminate].
  cbn [negb] in Hexec.
  destruct (balance w <? clearAmount) eqn:Hbalance; [discriminate|].
  unfold payee_of in Hexec. destruct accepts; [|discriminate].
  destruct (negb (this =? minter (rewardCoin _))); [discriminate|].
  injection Hexec as <-.
  apply Z.eqb_neq in Hstaker. apply Z.ltb_ge in Hbalance. auto 10.
Qed.

(** C10 as the code has it: [finalizeWithdraw] itself reads nothing of
    its caller.  The staker's code, which the payout runs and which can
    read the sender of the transaction, is given as a function [code] of
    that sender: in one state and with the same handle, clear amount and
    proof, two senders get the same result provided that code does the
    same for both in the world it is paid in; and when the call goes
    through, whatever the payee did, the native value was sent to the
    staker recorded under the handle in the pending-withdrawal index,
    and the newest mint and the final event name that staker, not the
    caller. *)
Theorem finalizeWithdraw_caller_independent block_timestamp amount'
    clearAmount decryptionProof accepts reentrant w :
  (is_uint64 clearAmount ->
   forall (code : address -> World -> option World) (caller relayer : address),
     code caller (settled amount' clearAmount w)
     = code relayer (settled amount' clearAmount w) ->
     finalizeWithdraw asEuint64 checkSignatures this (code caller) caller
       amount' clearAmount decryptionProof w
     = finalizeWithdraw asEuint64 checkSignatures this (code relayer) relayer
         amount' clearAmount decryptionProof w)
  /\ (forall (caller : address) w',
        is_uint64 clearAmount ->
        exec asEuint64 checkSignatures this block_timestamp
          (FinalizeWithdraw caller amount' clearAmount decryptionProof accepts
             reentrant) w = Ok (tt, w') ->
        NativeTransfer (request_of amount' w) clearAmount ∈ log w'
        /\ head (minted (rewardCoin w'))
           = Some (request_of amount' w, asEuint64 (rewardAmount clearAmount))
        /\ head (log w')
           = Some (WithdrawFinalized (request_of amount' w) clearAmount
                     (rewardAmount clearAmount))).
Proof.
  split.
  { intros Hclear code caller relayer Hsame.
    rewrite !(finalizeWithdraw_cases _ _ _ _ _ _ _ _ _ Hclear). cbv zeta.
    now rewrite Hsame. }
  intros caller w' Hclear Hexec.
  apply (finalizeWithdraw_Ok _ _ _ _ _ _ _ _ _ Hclear) in Hexec
    as (_ & _ & _ & _ & _ & _ & ->).
  split; [|split; reflexivity].
  cbn [log rewarded record set_rewardCoin]. apply elem_of_cons. right.
  eapply elem_of_suffix; [|apply run_calls_log_grows].
  cbn [log settled record]. apply elem_of_cons. now left.
Qed.

(** *** Invariants of the two mappings *)

Lemma requested_implies_active_kept block_timestamp c w :
  valid_call c = true -> requested_implies_active w ->
  requested_implies_active
    (fst (transact asEuint64 checkSignatures this block_timestamp c w)).
Proof.
  apply (transact_keeps asEuint64 checkSignatures this requested_implies_active);
    unfold requested_implies_active.
  - intros w1 w2 Hs _ H a. rewrite <- (stake_of_ledger a w1 w2 Hs). apply H.
  - intros s p w1 _ _ Hp Hq H a. rewrite stake_of_set_stake.
    destruct (decide (s = a)); [now rewrite Hp|apply H].
  - intros s w1 _ Hactive _ _ H a. unfold requested.
    rewrite (stake_of_ledger a _ (set_stake s
      {| amount := amount (stake_of s w1);
         unlockTimestamp := unlockTimestamp (stake_of s w1);
         active := active (stake_of s w1); withdrawRequested := true |} w1))
      by reflexivity.
    rewrite stake_of_set_stake.
    destruct (decide (s = a)); [intros _; exact Hactive|apply H].
  - intros h w1 _ _ _ H a.
    rewrite stake_of_delete_stake.
    destruct (decide (request_of h w1 = a)); [discriminate|].
    rewrite (stake_of_ledger a _ w1) by reflexivity. apply H.
Qed.

Lemma requested_implies_active_reachable w :
  reachable asEuint64 checkSignatures this w -> requested_implies_active w.
Proof.
  induction 1 as [a coin funds w Hfunds Hdeploy|t c w _ IH Hvalid].
  - unfold constructor in Hdeploy. destruct (a =? 0); [discriminate|].
    injection Hdeploy as <-. intros b. unfold stake_of. cbn [_stakes].
    rewrite lookup_empty. discriminate.
  - now apply requested_implies_active_kept.
Qed.

(** C5: in every reachable state and for every account,
    [withdrawRequested == true] implies [active == true]; and every call
    of [stake], [requestWithdraw] and [finalizeWithdraw] (as any other
    call into the contracts) that starts in a state with this property
    ends in one. *)
Theorem withdrawRequested_implies_active :
  (forall w a, reachable asEuint64 checkSignatures this w ->
     withdrawRequested (stake_of a w) = true -> active (stake_of a w) = true)
  /\ (forall block_timestamp c w,
        valid_call c = true -> requested_implies_active w ->
        requested_implies_active
          (fst (transact asEuint64 checkSignatures this block_timestamp c w))).
Proof.
  split.
  - intros w a Hreach. now apply requested_implies_active_reachable.
  - apply requested_implies_active_kept.
Qed.

Lemma pending_iff_requested_reachable w :
  reachable asEuint64 checkSignatures this w -> pending_iff_requested w.
Proof.
  apply (reachable_keeps asEuint64 checkSignatures this pending_iff_requested);
    unfold pending_iff_requested.
  - intros w1 w2 Hs Hr H h a Ha.
    rewrite <- (stake_of_ledger a w1 w2 Hs), <- (request_of_ledger h w1 w2 Hr).
    now apply H.
  - intros w1 Hs Hr h a Ha. unfold stake_of, request_of. rewrite Hs, Hr.
    rewrite !lookup_empty. cbn. split; [congruence|]. intros [? _]. discriminate.
  - intros s p w1 Hs Hinactive Hp Hq H h a Ha.
    rewrite stake_of_set_stake.
    rewrite (request_of_ledger h _ w1) by reflexivity.
    destruct (decide (s = a)) as [->|Hne]; [|now apply H].
    split.
    + intros Hreq. apply (H h a Ha) in Hreq as [Hactive _]. congruence.
    + intros (_ & Hq' & _). congruence.
  - intros s w1 Hs Hactive Hnot Hfree H h a Ha. unfold requested.
    rewrite (stake_of_ledger a _ (set_stake s
      {| amount := amount (stake_of s w1);
         unlockTimestamp := unlockTimestamp (stake_of s w1);
         active := active (stake_of s w1); withdrawRequested := true |} w1))
      by reflexivity.
    rewrite (request_of_ledger h _
      (set_request (amount (stake_of s w1)) s w1)) by reflexivity.
    rewrite stake_of_set_stake, request_of_set_request.
    destruct (decide (s = a)) as [->|Hne];
      destruct (decide (amount (stake_of a w1) = h)) as [Hh|Hh];
      cbn [amount active withdrawRequested].
    + tauto.
    + split; [|tauto]. intros Hreq. apply (H h a Ha) in Hreq. tauto.
    + destruct (decide (amount (stake_of s w1) = h)) as [Hsh|Hsh].
      * split; [congruence|]. intros Hpos. apply (H h a Ha) in Hpos. congruence.
      * now apply H.
    + destruct (decide (amount (stake_of s w1) = h)) as [Hsh|Hsh].
      * split; [congruence|]. intros Hpos. apply (H h a Ha) in Hpos. congruence.
      * now apply H.
  - intros h0 w1 Hstaker Hactive Hreq H h a Ha.
    rewrite stake_of_delete_stake.
    rewrite (stake_of_ledger a (delete_request h0 w1) w1) by reflexivity.
    rewrite (request_of_ledger h _ (delete_request h0 w1)) by reflexivity.
    rewrite request_of_delete_request.
    pose proof (proj1 (H h0 _ Hstaker) eq_refl) as (_ & _ & Hamount).
    destruct (decide (request_of h0 w1 = a)) as [<-|Hne];
      destruct (decide (h0 = h)) as [<-|Hh]; cbn [active zero_position].
    + split; [congruence|]. intros [? _]. discriminate.
    + split; [|intros [? _]; discriminate].
      intros Hother. apply (H h _ Hstaker) in Hother. destruct Hother as (_ & _ & ?).
      congruence.
    + split; [congruence|]. intros Hpos. apply (H h0 a Ha) in Hpos. congruence.
    + now apply H.
Qed.

(** C2: in every reachable state an account is the value of the
    pending-withdrawal index at a handle exactly when its position is
    active, has [withdrawRequested == true] and holds that handle, so an
    account has an entry exactly when its position is active and requested
    (a settled position is deleted, hence inactive); and a
    [requestWithdraw] that reaches the insertion with a handle that is
    already a key of the index is rejected with [InvalidWithdrawRequest],
    the existing entry and the rest of the state left as they were. *)
Theorem pending_index_invariant :
  (forall w, reachable asEuint64 checkSignatures this w ->
     forall (h : euint64) (a : address), a <> 0 ->
       request_of h w = a <->
       active (stake_of a w) = true /\ withdrawRequested (stake_of a w) = true
       /\ amount (stake_of a w) = h)
  /\ (forall w, reachable asEuint64 checkSignatures this w ->
        forall a : address, a <> 0 ->
          (exists h, request_of h w = a) <->
          active (stake_of a w) = true
          /\ withdrawRequested (stake_of a w) = true)
  /\ (forall w msg_sender block_timestamp,
        active (stake_of msg_sender w) = true ->
        withdrawRequested (stake_of msg_sender w) = false ->
        unlockTimestamp (stake_of msg_sender w) <= block_timestamp ->
        request_of (amount (stake_of msg_sender w)) w <> 0 ->
        transact asEuint64 checkSignatures this block_timestamp
          (RequestWithdraw msg_sender) w
        = (w, Some InvalidWithdrawRequest)).
Proof.
  split; [|split].
  - intros w Hreach. exact (pending_iff_requested_reachable w Hreach).
  - intros w Hreach a Ha.
    pose proof (pending_iff_requested_reachable w Hreach) as H. split.
    + intros [h Hh]. apply (H h a Ha) in Hh. tauto.
    + intros [Hactive Hreq]. exists (amount (stake_of a w)).
      now apply (H _ a Ha).
  - intros w s t Hactive Hnot Hunlock Htaken.
    unfold transact. cbn [exec]. rewrite requestWithdraw_cases. cbv zeta.
    rewrite Hactive, Hnot. cbn [negb].
    replace (t <? unlockTimestamp (stake_of s w)) with false
      by (symmetry; apply Z.ltb_ge; lia).
    replace (request_of (amount (stake_of s w)) w =? 0) with false
      by (symmetry; now apply Z.eqb_neq).
    reflexivity.
Qed.

(** C4 as the code has it: for a caller holding an active, not yet
    requested position, every [requestWithdraw] strictly before the
    position's unlock time fails with [WithdrawNotReady]; at or after the
    unlock time the call succeeds when the position's handle is not
    already a key of the pending-withdrawal index, and fails with
    [InvalidWithdrawRequest] when it is; after the success the position is
    active and requested, and while it is, every further [requestWithdraw]
    of the caller fails with [WithdrawAlreadyRequested]. *)
Theorem requestWithdraw_lock_then_once msg_sender w :
  active (stake_of msg_sender w) = true ->
  withdrawRequested (stake_of msg_sender w) = false ->
  (forall t, t < unlockTimestamp (stake_of msg_sender w) ->
     requestWithdraw msg_sender t w = Revert WithdrawNotReady)
  /\ (forall t, unlockTimestamp (stake_of msg_sender w) <= t ->
        request_of (amount (stake_of msg_sender w)) w = 0 ->
        requestWithdraw msg_sender t w = Ok (tt, requested msg_sender w)
        /\ active (stake_of msg_sender (requested msg_sender w)) = true
        /\ withdrawRequested (stake_of msg_sender (requested msg_sender w))
           = true)
  /\ (forall t, unlockTimestamp (stake_of msg_sender w) <= t ->
        request_of (amount (stake_of msg_sender w)) w <> 0 ->
        requestWithdraw msg_sender t w = Revert InvalidWithdrawRequest)
  /\ (forall t' w',
        active (stake_of msg_sender w') = true ->
        withdrawRequested (stake_of msg_sender w') = true ->
        requestWithdraw msg_sender t' w' = Revert WithdrawAlreadyRequested).
Proof.
  intros Hactive Hnot.
  assert (Hposition : forall w1,
            _stakes w1 = _stakes (requested msg_sender w) ->
            stake_of msg_sender w1
            = {| amount := amount (stake_of msg_sender w);
                 unlockTimestamp := unlockTimestamp (stake_of msg_sender w);
                 active := active (stake_of msg_sender w);
                 withdrawRequested := true |}).
  { intros w1 Hw1. unfold stake_of. rewrite Hw1. cbn [_stakes requested record
      set_request set_stake]. now rewrite lookup_insert_eq. }
  split; [|split; [|split]].
  - intros t Hearly. rewrite requestWithdraw_cases. cbv zeta.
    rewrite Hactive, Hnot. cbn [negb].
    now replace (t <? unlockTimestamp (stake_of msg_sender w)) with true
      by (symmetry; apply Z.ltb_lt; lia).
  - intros t Hlate Hfree. rewrite (Hposition _ eq_refl).
    cbn [active withdrawRequested]. split; [|split; [exact Hactive|reflexivity]].
    rewrite requestWithdraw_cases. cbv zeta. rewrite Hactive, Hnot. cbn [negb].
    replace (t <? unlockTimestamp (stake_of msg_sender w)) with false
      by (symmetry; apply Z.ltb_ge; lia).
    now rewrite Hfree.
  - intros t Hlate Htaken. rewrite requestWithdraw_cases. cbv zeta.
    rewrite Hactive, Hnot. cbn [negb].
    replace (t <? unlockTimestamp (stake_of msg_sender w)) with false
      by (symmetry; apply Z.ltb_ge; lia).
    now replace (request_of (amount (stake_of msg_sender w)) w =? 0) with false
      by (symmetry; now apply Z.eqb_neq).
  - intros t' w' Hactive' Hreq'. rewrite requestWithdraw_cases. cbv zeta.
    now rewrite Hactive', Hreq'.
Qed.

(** A settlement whose checks pass, whose payout the balance covers and
    the payee accepts without calling back, and whose mint is authorised,
    goes through. *)
Lemma settlement_goes_through block_timestamp msg_sender amount' clearAmount
    decryptionProof w :
  request_of amount' w <> 0 ->
  active (stake_of (request_of amount' w) w) = true ->
  withdrawRequested (stake_of (request_of amount' w) w) = true ->
  checkSignatures amount' clearAmount decryptionProof = true ->
  is_uint64 clearAmount -> clearAmount <= balance w ->
  minter (rewardCoin w) = this ->
  exec asEuint64 checkSignatures this block_timestamp
    (FinalizeWithdraw msg_sender amount' clearAmount decryptionProof true []) w
  = Ok (tt, rewarded asEuint64 (request_of amount' w) clearAmount
              (settled amount' clearAmount w)).
Proof.
  intros Hstaker Hactive Hreq Hproof Hclear Hbalance Hminter. cbn [exec].
  rewrite (finalizeWithdraw_cases _ _ _ _ _ _ _ _ _ Hclear). cbv zeta.
  replace (request_of amount' w =? 0) with false
    by (symmetry; now apply Z.eqb_neq).
  rewrite Hactive, Hreq, Hproof. cbn [negb orb].
  replace (balance w <? clearAmount) with false
    by (symmetry; apply Z.ltb_ge; lia).
  unfold payee_of. cbn [run_calls rewardCoin settled record set_balance
    delete_stake delete_request].
  rewrite Hminter, Z.eqb_refl. reflexivity.
Qed.

(** [TransferFailed] is raised after every check has passed. *)
Lemma transfer_failed_after_checks (payee : Recipient) msg_sender amount'
    clearAmount decryptionProof w :
  is_uint64 clearAmount ->
  finalizeWithdraw asEuint64 checkSignatures this payee msg_sender amount'
    clearAmount decryptionProof w = Revert TransferFailed ->
  request_of amount' w <> 0
  /\ active (stake_of (request_of amount' w) w) = true
  /\ withdrawRequested (stake_of (request_of amount' w) w) = true
  /\ checkSignatures amount' clearAmount decryptionProof = true.
Proof.
  intros Hclear.
  rewrite (finalizeWithdraw_cases _ _ _ _ _ _ _ _ _ Hclear). cbv zeta.
  destruct (request_of amount' w =? 0) eqn:Hstaker; [discriminate|].
  destruct (active (stake_of (request_of amount' w) w)); [|discriminate].
  destruct (withdrawRequested (stake_of (request_of amount' w) w));
    [|discriminate].
  destruct (checkSignatures amount' clearAmount decryptionProof);
    [|discriminate].
  intros _. apply Z.eqb_neq in Hstaker. auto.
Qed.

(** C3: a call of [stake], [requestWithdraw] or [finalizeWithdraw] (or of
    any other entry point) that aborts with an error leaves the whole
    state, the position map and the pending-withdrawal index included, as
    it was before the call.  After a [finalizeWithdraw] aborted by
    [TransferFailed] the staker's position is still active and requested
    and the handle still maps to the staker, and the same withdrawal,
    retried with a payee that accepts, a balance that covers the payout
    and the ledger as minter, goes through. *)
Theorem revert_is_atomic :
  (forall block_timestamp c w e,
     snd (transact asEuint64 checkSignatures this block_timestamp c w) = Some e ->
     fst (transact asEuint64 checkSignatures this block_timestamp c w) = w)
  /\ (forall block_timestamp msg_sender amount' clearAmount decryptionProof
        accepts reentrant w,
        is_uint64 clearAmount ->
        snd (transact asEuint64 checkSignatures this block_timestamp
               (FinalizeWithdraw msg_sender amount' clearAmount decryptionProof
                  accepts reentrant) w) = Some TransferFailed ->
        let w' :=
          fst (transact asEuint64 checkSignatures this block_timestamp
                 (FinalizeWithdraw msg_sender amount' clearAmount
                    decryptionProof accepts reentrant) w) in
        let staker := request_of amount' w in
        _stakes w' = _stakes w /\ _withdrawRequests w' = _withdrawRequests w
        /\ staker <> 0 /\ request_of amount' w' = staker
        /\ active (stake_of staker w') = true
        /\ withdrawRequested (stake_of staker w') = true
        /\ (forall later relayer,
              clearAmount <= balance w' -> minter (rewardCoin w') = this ->
              snd (transact asEuint64 checkSignatures this later
                     (FinalizeWithdraw relayer amount' clearAmount
                        decryptionProof true []) w') = None)).
Proof.
  split.
  - intros t c w e. unfold transact.
    destruct (exec _ _ _ t c w) as [[[] w']|e']; [discriminate|reflexivity].
  - intros t msg_sender amount' clearAmount decryptionProof accepts reentrant w
      Hclear Hfailed.
    unfold transact in Hfailed |- *.
    destruct (exec _ _ _ t _ w) as [[[] w']|e] eqn:Hexec; [discriminate|].
    injection Hfailed as ->. cbn [fst].
    cbn [exec] in Hexec.
    apply (transfer_failed_after_checks _ _ _ _ _ _ Hclear) in Hexec
      as (Hstaker & Hactive & Hreq & Hproof).
    repeat (split; [done|]).
    intros later relayer Hbalance Hminter.
    now rewrite (settlement_goes_through later relayer _ _ _ w).
Qed.

(** C1 as the code has it: in a state where the handle is in the
    pending-withdrawal index for a staker whose position is active and
    requested, a [finalizeWithdraw] whose proof verifies, whose payout the
    ledger's balance covers and the staker accepts without calling back
    into the contracts, and for which the ledger is the RewardCoin's
    minter, goes through and (1) deletes the position, so that [getStake]
    reports the zero position with [active = false], (2) transfers exactly
    [clearAmount] of native value to the staker, (3) mints the encryption
    of exactly [floor(clearAmount * 1000e6 / 1e18)] reward units to the
    staker, and (4) removes the handle from the index, so that every
    repeat call fails with [InvalidWithdrawRequest]. *)
Theorem finalizeWithdraw_settles block_timestamp msg_sender amount'
    clearAmount decryptionProof w :
  let staker := request_of amount' w in
  staker <> 0 ->
  active (stake_of staker w) = true ->
  withdrawRequested (stake_of staker w) = true ->
  checkSignatures amount' clearAmount decryptionProof = true ->
  is_uint64 clearAmount -> clearAmount <= balance w ->
  minter (rewardCoin w) = this ->
  exists w',
    transact asEuint64 checkSignatures this block_timestamp
      (FinalizeWithdraw msg_sender amount' clearAmount decryptionProof true [])
      w = (w', None)
    /\ getStake staker w' = (0, 0, false, false)
    /\ balance w' = balance w - clearAmount
    /\ log w' = WithdrawFinalized staker clearAmount
                  ((clearAmount * (1000 * 10 ^ 6)) / 10 ^ 18)
                :: NativeTransfer staker clearAmount :: log w
    /\ minted (rewardCoin w')
       = (staker, asEuint64 ((clearAmount * (1000 * 10 ^ 6)) / 10 ^ 18))
         :: minted (rewardCoin w)
    /\ request_of amount' w' = 0
    /\ (forall later relayer clearAmount' decryptionProof' accepts reentrant,
          transact asEuint64 checkSignatures this later
            (FinalizeWithdraw relayer amount' clearAmount' decryptionProof'
               accepts reentrant) w'
          = (w', Some InvalidWithdrawRequest)).
Proof.
  intros staker Hstaker Hactive Hreq Hproof Hclear Hbalance Hminter.
  subst staker.
  exists (rewarded asEuint64 (request_of amount' w) clearAmount
            (settled amount' clearAmount w)).
  assert (Hgone : request_of amount'
            (rewarded asEuint64 (request_of amount' w) clearAmount
               (settled amount' clearAmount w)) = 0).
  { rewrite (request_of_ledger _ _ (delete_request amount' w)) by reflexivity.
    rewrite request_of_delete_request, decide_True; reflexivity. }
  split; [|split; [|split; [|split; [|split; [|split]]]]].
  - unfold transact. now rewrite settlement_goes_through.
  - unfold getStake.
    rewrite (stake_of_ledger _ _
      (delete_stake (request_of amount' w) (delete_request amount' w)))
      by reflexivity.
    rewrite stake_of_delete_stake, decide_True; reflexivity.
  - reflexivity.
  - reflexivity.
  - reflexivity.
  - exact Hgone.
  - intros later relayer clearAmount' decryptionProof' accepts reentrant.
    unfold transact. cbn [exec].
    now rewrite (unknown_handle_rejected _ _ _ _ _ _ Hgone).
Qed.

End Claims.

(** * Concrete runs *)

Lemma pending_world_reachable :
  reachable Mock.asEuint64 Mock.checkSignatures Mock.this Mock.pending_world.
Proof.
  unfold Mock.pending_world, Mock.staked_world, Mock.after. cbn [fold_left fst snd].
  apply reachable_transact; [|reflexivity].
  apply reachable_transact; [|reflexivity].
  apply (reachable_deploy _ _ _ 500
           {| owner := Mock.deployer; minter := Mock.this; minted := [] |} 0);
    [discriminate|reflexivity].
Qed.

Lemma crowded_world_reachable :
  reachable Mock.asEuint64 Mock.checkSignatures Mock.this Mock.crowded_world.
Proof.
  unfold Mock.crowded_world, Mock.after. cbn [fold_left fst snd].
  do 3 (apply reachable_transact; [|reflexivity]).
  apply (reachable_deploy _ _ _ 500
           {| owner := Mock.deployer; minter := Mock.this; minted := [] |} 0);
    [discriminate|reflexivity].
Qed.

Lemma RewardOverflow_unreachable_witness :
  is_uint64 UINT64_MAX
  /\ rewardAmount UINT64_MAX <= UINT64_MAX
  /\ forall (payee : Recipient) msg_sender amount' decryptionProof w,
       finalizeWithdraw Mock.asEuint64 Mock.checkSignatures Mock.this payee
         msg_sender amount' UINT64_MAX decryptionProof w
       <> Revert RewardOverflow.
Proof.
  assert (H : is_uint64 UINT64_MAX) by (vm_compute; split; discriminate).
  split; [exact H|].
  exact (RewardOverflow_unreachable Mock.asEuint64 Mock.checkSignatures
           Mock.this UINT64_MAX H).
Defined.

Lemma stake_then_getStake_witness :
  getStake Mock.alice Mock.staked_world = (Mock.deposit, 110, true, false).
Proof.
  apply (stake_then_getStake Mock.asEuint64 Mock.this Mock.alice Mock.deposit
           100 10 Mock.genesis Mock.staked_world).
  - reflexivity.
  - vm_compute. split; [reflexivity|discriminate].
  - reflexivity.
  - vm_compute. split; discriminate.
  - vm_compute. reflexivity.
Defined.

Lemma finalizeWithdraw_unknown_handle_witness :
  request_of 7 Mock.pending_world = 0
  /\ Mock.transact 111 (FinalizeWithdraw Mock.bob 7 7 [] true [])
       Mock.pending_world
     = (Mock.pending_world, Some InvalidWithdrawRequest).
Proof.
  assert (H : request_of 7 Mock.pending_world = 0) by reflexivity.
  split; [exact H|].
  exact (proj1 (proj2 (finalizeWithdraw_unknown_handle Mock.asEuint64
                         Mock.checkSignatures Mock.this 7 Mock.pending_world H)
                  111 Mock.bob 7 [] true [])).
Defined.

Lemma finalizeWithdraw_caller_independent_witness :
  request_of Mock.deposit Mock.pending_world = Mock.alice
  /\ NativeTransfer Mock.alice Mock.deposit ∈ log Mock.relayed_world
  /\ head (minted (rewardCoin Mock.relayed_world)) = Some (Mock.alice, 2 * 10 ^ 9).
Proof.
  split; [reflexivity|].
  assert (Hclear : is_uint64 Mock.deposit) by (vm_compute; split; discriminate).
  assert (Hexec : exec Mock.asEuint64 Mock.checkSignatures Mock.this 111
                    (FinalizeWithdraw Mock.bob Mock.deposit Mock.deposit [] true
                       []) Mock.pending_world = Ok (tt, Mock.relayed_world))
    by (vm_compute; reflexivity).
  destruct (proj2 (finalizeWithdraw_caller_independent Mock.asEuint64
                     Mock.checkSignatures Mock.this 111 Mock.deposit
                     Mock.deposit [] true [] Mock.pending_world)
              Mock.bob Mock.relayed_world Hclear Hexec) as (Hpaid & Hminted & _).
  split; [exact Hpaid|exact Hminted].
Defined.

(** The claim C10 fails where the staker's code looks at the sender of
    the transaction: in one state and with the same handle, clear amount
    and proof, the settlement sent by Bob goes through and the one sent
    by Carol aborts with [TransferFailed]. *)
Lemma finalizeWithdraw_sender_counterexample :
  finalizeWithdraw Mock.asEuint64 Mock.checkSignatures Mock.this
    (Mock.for_bob_only Mock.bob) Mock.bob Mock.deposit Mock.deposit []
    Mock.pending_world
  = Ok (tt, Mock.relayed_world)
  /\ finalizeWithdraw Mock.asEuint64 Mock.checkSignatures Mock.this
       (Mock.for_bob_only Mock.carol) Mock.carol Mock.deposit Mock.deposit []
       Mock.pending_world
     = Revert TransferFailed.
Proof. split; vm_compute; reflexivity. Qed.

Lemma revert_is_atomic_witness :
  Mock.transact 111
    (FinalizeWithdraw Mock.bob Mock.deposit Mock.deposit [] false [])
    Mock.pending_world
  = (Mock.pending_world, Some TransferFailed)
  /\ request_of Mock.deposit Mock.pending_world = Mock.alice
  /\ snd (Mock.transact 200
            (FinalizeWithdraw Mock.bob Mock.deposit Mock.deposit [] true [])
            Mock.pending_world) = None.
Proof.
  split; [vm_compute; reflexivity|]. split; [reflexivity|].
  assert (Hclear : is_uint64 Mock.deposit) by (vm_compute; split; discriminate).
  assert (Hfailed :
            snd (transact Mock.asEuint64 Mock.checkSignatures Mock.this 111
                   (FinalizeWithdraw Mock.bob Mock.deposit Mock.deposit [] false
                      []) Mock.pending_world) = Some TransferFailed)
    by (vm_compute; reflexivity).
  destruct (proj2 (revert_is_atomic Mock.asEuint64 Mock.checkSignatures
                     Mock.this)
              111 Mock.bob Mock.deposit Mock.deposit [] false []
              Mock.pending_world Hclear Hfailed)
    as (_ & _ & _ & _ & _ & _ & Hretry).
  apply (Hretry 200 Mock.bob); [vm_compute; discriminate|reflexivity].
Defined.

Lemma withdrawRequested_implies_active_witness :
  withdrawRequested (stake_of Mock.alice Mock.pending_world) = true
  /\ active (stake_of Mock.alice Mock.pending_world) = true.
Proof.
  assert (H : withdrawRequested (stake_of Mock.alice Mock.pending_world) = true)
    by reflexivity.
  split; [exact H|].
  exact (proj1 (withdrawRequested_implies_active Mock.asEuint64
                  Mock.checkSignatures Mock.this)
           Mock.pending_world Mock.alice pending_world_reachable H).
Defined.

Lemma pending_index_invariant_witness :
  (request_of Mock.deposit Mock.crowded_world = Mock.alice
   /\ active (stake_of Mock.alice Mock.crowded_world) = true
   /\ withdrawRequested (stake_of Mock.alice Mock.crowded_world) = true
   /\ amount (stake_of Mock.alice Mock.crowded_world) = Mock.deposit)
  /\ Mock.transact 120 (RequestWithdraw Mock.bob) Mock.crowded_world
     = (Mock.crowded_world, Some InvalidWithdrawRequest).
Proof.
  pose proof (pending_index_invariant Mock.asEuint64 Mock.checkSignatures
                Mock.this) as (Hiff & _ & Hcollision).
  split.
  - assert (Hentry : request_of Mock.deposit Mock.crowded_world = Mock.alice)
      by reflexivity.
    split; [exact Hentry|].
    apply (Hiff Mock.crowded_world crowded_world_reachable Mock.deposit
             Mock.alice); [discriminate|exact Hentry].
  - apply (Hcollision Mock.crowded_world Mock.bob 120);
      [reflexivity|reflexivity|vm_compute; discriminate|vm_compute; discriminate].
Defined.

Lemma requestWithdraw_lock_then_once_witness :
  requestWithdraw Mock.alice 109 Mock.staked_world = Revert WithdrawNotReady
  /\ requestWithdraw Mock.alice 110 Mock.staked_world
     = Ok (tt, requested Mock.alice Mock.staked_world)
  /\ requestWithdraw Mock.alice 111 (requested Mock.alice Mock.staked_world)
     = Revert WithdrawAlreadyRequested.
Proof.
  destruct (requestWithdraw_lock_then_once Mock.alice Mock.staked_world
              eq_refl eq_refl) as (Hearly & Hlate & _ & Hagain).
  split; [apply Hearly; reflexivity|].
  destruct (Hlate 110) as (Hok & Hactive & Hrequested);
    [vm_compute; discriminate|reflexivity|].
  split; [exact Hok|]. apply Hagain; assumption.
Defined.

(** The claim C4 fails where two pending positions would share a handle:
    Bob holds an active, not yet requested position whose unlock time 110
    has passed at time 120, and his [requestWithdraw] is rejected with
    [InvalidWithdrawRequest], because Alice, who staked the same amount,
    already has the handle in the index. *)
Lemma requestWithdraw_collision_counterexample :
  active (stake_of Mock.bob Mock.crowded_world) = true
  /\ withdrawRequested (stake_of Mock.bob Mock.crowded_world) = false
  /\ unlockTimestamp (stake_of Mock.bob Mock.crowded_world) = 110
  /\ requestWithdraw Mock.bob 120 Mock.crowded_world
     = Revert InvalidWithdrawRequest
  /\ Mock.transact 120 (RequestWithdraw Mock.bob) Mock.crowded_world
     = (Mock.crowded_world, Some InvalidWithdrawRequest).
Proof. repeat split; vm_compute; reflexivity. Qed.

Lemma finalizeWithdraw_settles_witness :
  exists w',
    Mock.transact 111
      (FinalizeWithdraw Mock.bob Mock.deposit Mock.deposit [] true [])
      Mock.pending_world = (w', None)
    /\ getStake Mock.alice w' = (0, 0, false, false)
    /\ balance w' = 0
    /\ head (minted (rewardCoin w')) = Some (Mock.alice, 2 * 10 ^ 9)
    /\ request_of Mock.deposit w' = 0.
Proof.
  destruct (finalizeWithdraw_settles Mock.asEuint64 Mock.checkSignatures
              Mock.this 111 Mock.bob Mock.deposit Mock.deposit []
              Mock.pending_world)
    as (w' & Hrun & Hstake & Hbalance & _ & Hminted & Hgone & _).
  - vm_compute. discriminate.
  - reflexivity.
  - reflexivity.
  - reflexivity.
  - vm_compute. split; discriminate.
  - vm_compute. discriminate.
  - reflexivity.
  - exists w'. split; [exact Hrun|]. split; [exact Hstake|].
    split; [rewrite Hbalance; reflexivity|].
    split; [rewrite Hminted; reflexivity|exact Hgone].
Defined.

(** The claim C1 fails where the payout or the mint does.  The handle is
    pending for Alice, her position is active and requested, and the
    proof verifies; yet when Alice's code rejects the payment the call
    aborts with [TransferFailed] and her position stays active; when her
    code accepts the payment and stakes again before it returns, the call
    goes through and [getStake] reports an active position afterwards;
    and on a ledger that is not the RewardCoin's minter the call aborts
    with [Unauthorized]. *)
Lemma finalizeWithdraw_payee_counterexample :
  (request_of Mock.deposit Mock.pending_world = Mock.alice
   /\ active (stake_of Mock.alice Mock.pending_world) = true
   /\ withdrawRequested (stake_of Mock.alice Mock.pending_world) = true
   /\ Mock.checkSignatures Mock.deposit Mock.deposit [] = true)
  /\ (let after :=
        Mock.transact 111
          (FinalizeWithdraw Mock.bob Mock.deposit Mock.deposit [] false [])
          Mock.pending_world in
      snd after = Some TransferFailed
      /\ getStake Mock.alice (fst after) = (Mock.deposit, 110, true, true)
      /\ request_of Mock.deposit (fst after) = Mock.alice)
  /\ (let after :=
        Mock.transact 111
          (FinalizeWithdraw Mock.bob Mock.deposit Mock.deposit [] true
             [Stake Mock.alice 3 3])
          Mock.pending_world in
      snd after = None
      /\ getStake Mock.alice (fst after) = (3, 114, true, false))
  /\ (request_of Mock.deposit Mock.unnamed_world = Mock.alice
      /\ getStake Mock.alice Mock.unnamed_world = (Mock.deposit, 110, true, true)
      /\ Mock.transact 111
           (FinalizeWithdraw Mock.bob Mock.deposit Mock.deposit [] true [])
           Mock.unnamed_world
         = (Mock.unnamed_world, Some Unauthorized)).
Proof. repeat split; vm_compute; reflexivity. Qed.

(** * Further properties of the code *)

(** ** Properties of the whole world kept by every call *)

Section WorldInvariant.

Variable asEuint64 : Z -> euint64.
Variable checkSignatures : euint64 -> Z -> bytes -> bool.
Variable this : address.

(** The calls considered, and the property [K] they are to keep. *)
Variable P : Call -> Prop.
Variable K : World -> Prop.

Hypothesis P_valid : forall c, P c -> valid_call c = true.
Hypothesis P_nested : forall s h clr pf acc cs,
  P (FinalizeWithdraw s h clr pf acc cs) -> Forall P cs.
Hypothesis K_stake : forall s v d t w w',
  P (Stake s v d) -> K w ->
  stake asEuint64 this s v t d w = Ok (tt, w') -> K w'.
Hypothesis K_request : forall s t w w',
  P (RequestWithdraw s) -> K w ->
  requestWithdraw s t w = Ok (tt, w') -> K w'.
Hypothesis K_settled : forall h clr w,
  is_uint64 clr -> request_of h w <> 0 -> clr <= balance w ->
  K w -> K (settled h clr w).
Hypothesis K_rewarded : forall staker clr w,
  is_uint64 clr -> staker <> 0 -> minter (rewardCoin w) = this ->
  K w -> K (rewarded asEuint64 staker clr w).
Hypothesis K_setMinter : forall s m w w',
  P (SetMinter s m) -> K w -> setMinter s m w = Ok (tt, w') -> K w'.
Hypothesis K_transferOwnership : forall s o w w',
  P (TransferOwnership s o) -> K w ->
  transferOwnership s o w = Ok (tt, w') -> K w'.
Hypothesis K_mint : forall s to a w w',
  P (Mint s to a) -> K w -> mint asEuint64 s to a w = Ok (tt, w') -> K w'.
Hypothesis K_forced : forall v w,
  P (Forced v) -> K w -> K (set_balance (balance w + v) w).

Lemma exec_keeps_world (c : Call) :
  P c ->
  forall block_timestamp w w',
    K w ->
    exec asEuint64 checkSignatures this block_timestamp c w = Ok (tt, w') ->
    K w'.
Proof.
  induction c as [s v d|s|s h clr pf acc cs IH|s v|s m|s o|s to a|v]
    using Call_nested_ind; intros HP t w w' Hw Hexec; cbn [exec] in Hexec.
  - exact (K_stake _ _ _ _ _ _ HP Hw Hexec).
  - exact (K_request _ _ _ _ HP Hw Hexec).
  - pose proof (P_valid _ HP) as Hvalid.
    apply valid_call_FinalizeWithdraw in Hvalid as (_ & Hclr & _).
    rewrite (finalizeWithdraw_cases _ _ _ _ _ _ _ _ _ Hclr) in Hexec.
    cbv zeta in Hexec.
    destruct (request_of h w =? 0) eqn:Hstaker; [discriminate|].
    apply Z.eqb_neq in Hstaker.
    destruct (negb (active (stake_of (request_of h w) w))
              || negb (withdrawRequested (stake_of (request_of h w) w)));
      [discriminate|].
    destruct (negb (checkSignatures h clr pf)); [discriminate|].
    destruct (balance w <? clr) eqn:Hbalance; [discriminate|].
    apply Z.ltb_ge in Hbalance.
    unfold payee_of in Hexec. destruct acc; [|discriminate].
    destruct (this =? minter (rewardCoin _)) eqn:Hminter; [|discriminate].
    apply Z.eqb_eq in Hminter. cbn [negb] in Hexec. injection Hexec as <-.
    apply K_rewarded; [exact Hclr|exact Hstaker|now symmetry|].
    apply (run_calls_keeps K).
    + pose proof (P_nested _ _ _ _ _ _ HP) as Hcs.
      rewrite Forall_forall in IH, Hcs |- *. intros c Hc w1 w2 Hw1 Hstep.
      exact (IH c Hc (Hcs c Hc) t w1 w2 Hw1 Hstep).
    + now apply K_settled.
  - discriminate.
  - exact (K_setMinter _ _ _ _ HP Hw Hexec).
  - exact (K_transferOwnership _ _ _ _ HP Hw Hexec).
  - exact (K_mint _ _ _ _ _ HP Hw Hexec).
  - unfold force_value in Hexec. unfold_M_in Hexec. injection Hexec as <-.
    exact (K_forced _ _ HP Hw).
Qed.

Lemma transact_keeps_world block_timestamp c w :
  P c -> K w ->
  K (fst (transact asEuint64 checkSignatures this block_timestamp c w)).
Proof.
  intros HP Hw. unfold transact.
  destruct (exec _ _ _ _ _ w) as [[[] w']|e] eqn:Hexec; cbn [fst];
    [|assumption].
  exact (exec_keeps_world c HP _ _ _ Hw Hexec).
Qed.

End WorldInvariant.

Lemma valid_call_nested s h clr pf acc cs :
  valid_call (FinalizeWithdraw s h clr pf acc cs) = true ->
  Forall (fun c => valid_call c = true) cs.
Proof. intros H. now apply valid_call_FinalizeWithdraw in H. Qed.

Lemma setMinter_Ok s m w w' :
  setMinter s m w = Ok (tt, w') ->
  s = owner (rewardCoin w) /\ m <> 0
  /\ w' = record (MinterUpdated m)
            (set_rewardCoin
               {| owner := owner (rewardCoin w); minter := m;
                  minted := minted (rewardCoin w) |} w).
Proof.
  unfold setMinter, onlyOwner. unfold_M.
  destruct (s =? owner (rewardCoin w)) eqn:Hs; [|discriminate].
  destruct (m =? 0) eqn:Hm; [discriminate|]. cbn [negb].
  intros [= <-]. apply Z.eqb_eq in Hs. apply Z.eqb_neq in Hm. auto.
Qed.

Lemma transferOwnership_Ok s o w w' :
  transferOwnership s o w = Ok (tt, w') ->
  s = owner (rewardCoin w) /\ o <> 0
  /\ w' = set_rewardCoin
            {| owner := o; minter := minter (rewardCoin w);
               minted := minted (rewardCoin w) |}
            (record (OwnershipTransferred (owner (rewardCoin w)) o) w).
Proof.
  unfold transferOwnership, onlyOwner. unfold_M.
  destruct (s =? owner (rewardCoin w)) eqn:Hs; [|discriminate].
  destruct (o =? 0) eqn:Ho; [discriminate|]. cbn [negb].
  intros [= <-]. apply Z.eqb_eq in Hs. apply Z.eqb_neq in Ho. auto.
Qed.

Lemma mint_Ok asEuint64 s to a w w' :
  mint asEuint64 s to a w = Ok (tt, w') ->
  s = minter (rewardCoin w) /\ to <> 0
  /\ w' = set_rewardCoin
            {| owner := owner (rewardCoin w); minter := minter (rewardCoin w);
               minted := (to, asEuint64 a) :: minted (rewardCoin w) |} w.
Proof.
  unfold mint, onlyMinter, _mint. unfold_M.
  destruct (s =? minter (rewardCoin w)) eqn:Hs; [|discriminate].
  destruct (to =? 0) eqn:Hto; [discriminate|]. cbn [negb].
  intros [= <-]. apply Z.eqb_eq in Hs. apply Z.eqb_neq in Hto. auto.
Qed.

(** A test that fails on a call and on the calls nested in it fails on
    each nested call. *)
Lemma existsb_false_Forall (f : Call -> bool) cs :
  existsb f cs = false -> Forall (fun c => f c = false) cs.
Proof.
  intros Hnone. apply Forall_forall. intros c Hc.
  destruct (f c) eqn:Hfc; [|reflexivity].
  rewrite <- Hnone. symmetry. apply existsb_exists. exists c.
  split; [now apply list_elem_of_In|exact Hfc].
Qed.

Lemma stake_Ok asEuint64 this s v t d w w' :
  stake asEuint64 this s v t d w = Ok (tt, w') ->
  v <> 0 /\ v <= UINT64_MAX /\ d <> 0 /\ active (stake_of s w) = false
  /\ to_uint64 t + d <= UINT64_MAX
  /\ w' = staked asEuint64 this s v (to_uint64 t + d) w.
Proof.
  rewrite stake_cases.
  destruct (v =? 0) eqn:Hv; [discriminate|].
  destruct (UINT64_MAX <? v) eqn:Hfit; [discriminate|]. cbn [orb].
  destruct (d =? 0) eqn:Hd; [discriminate|].
  destruct (active (stake_of s w)); [discriminate|].
  destruct (UINT64_MAX <? to_uint64 t + d) eqn:Hover; [discriminate|].
  intros [= <-]. apply Z.eqb_neq in Hv, Hd. apply Z.ltb_ge in Hfit, Hover.
  auto 10.
Qed.

Lemma requestWithdraw_Ok s t w w' :
  requestWithdraw s t w = Ok (tt, w') ->
  active (stake_of s w) = true /\ withdrawRequested (stake_of s w) = false
  /\ unlockTimestamp (stake_of s w) <= t
  /\ request_of (amount (stake_of s w)) w = 0
  /\ w' = requested s w.
Proof.
  rewrite requestWithdraw_cases. cbv zeta.
  destruct (active (stake_of s w)); [|discriminate].
  destruct (withdrawRequested (stake_of s w)); [discriminate|]. cbn [negb].
  destruct (t <? unlockTimestamp (stake_of s w)) eqn:Ht; [discriminate|].
  destruct (request_of (amount (stake_of s w)) w =? 0) eqn:Hfree;
    [|discriminate].
  intros [= <-]. apply Z.ltb_ge in Ht. apply Z.eqb_eq in Hfree. auto.
Qed.

Section Accounting.

Variable asEuint64 : Z -> euint64.
Variable checkSignatures : euint64 -> Z -> bytes -> bool.
Variable this : address.




Lemma settlements_are_minted block_timestamp c w :
  valid_call c = true ->
  exists l m,
    adds l m w
      (fst (transact asEuint64 checkSignatures this block_timestamp c w))
    /\ rewards_of asEuint64 l `sublist_of` m
    /\ rewards_as_computed l.
Proof.
  intros Hvalid.
  apply (transact_keeps_world asEuint64 checkSignatures this
           (fun c => valid_call c = true)
           (fun w1 => exists l m,
              adds l m w w1 /\ rewards_of asEuint64 l `sublist_of` m
              /\ rewards_as_computed l));
    [auto|apply valid_call_nested|..|exact Hvalid
    |exists [], []; repeat split; [reflexivity|constructor]];
    unfold adds, rewards_as_computed.
  - intros s v d t w1 w2 _ (l & m & [Hl Hm] & Hsub & Hr) Hstake.
    apply stake_Ok in Hstake as (_ & _ & _ & _ & _ & ->).
    eexists (_ :: _ :: _ :: l), m.
    cbn [rewardCoin log staked record set_stake set_balance rewards_of].
    rewrite Hl. repeat split; [exact Hm|exact Hsub|].
    repeat (constructor; [exact I|]). exact Hr.
  - intros s t w1 w2 _ (l & m & [Hl Hm] & Hsub & Hr) Hreq.
    apply requestWithdraw_Ok in Hreq as (_ & _ & _ & _ & ->).
    eexists (_ :: _ :: l), m.
    cbn [rewardCoin log requested record set_request set_stake rewards_of].
    rewrite Hl. repeat split; [exact Hm|exact Hsub|].
    repeat (constructor; [exact I|]). exact Hr.
  - intros h clr w1 _ _ _ (l & m & [Hl Hm] & Hsub & Hr).
    eexists (_ :: l), m.
    cbn [rewardCoin log settled record set_balance delete_stake
      delete_request rewards_of].
    rewrite Hl. repeat split; [exact Hm|exact Hsub|].
    constructor; [exact I|exact Hr].
  - intros staker clr w1 _ _ _ (l & m & [Hl Hm] & Hsub & Hr).
    eexists (_ :: l), (_ :: m).
    cbn [rewardCoin log rewarded record set_rewardCoin minted rewards_of].
    rewrite Hl, Hm. repeat split; [now apply sublist_skip|].
    constructor; [reflexivity|exact Hr].
  - intros s m0 w1 w2 _ (l & m & [Hl Hm] & Hsub & Hr) Hset.
    apply setMinter_Ok in Hset as (_ & _ & ->).
    eexists (_ :: l), m.
    cbn [rewardCoin log record set_rewardCoin minted rewards_of].
    rewrite Hl. repeat split; [exact Hm|exact Hsub|].
    constructor; [exact I|exact Hr].
  - intros s o w1 w2 _ (l & m & [Hl Hm] & Hsub & Hr) Hset.
    apply transferOwnership_Ok in Hset as (_ & _ & ->).
    eexists (_ :: l), m.
    cbn [rewardCoin log record set_rewardCoin minted rewards_of].
    rewrite Hl. repeat split; [exact Hm|exact Hsub|].
    constructor; [exact I|exact Hr].
  - intros s to a w1 w2 _ (l & m & [Hl Hm] & Hsub & Hr) Hmint.
    apply mint_Ok in Hmint as (_ & _ & ->).
    exists l, ((to, asEuint64 a) :: m).
    cbn [rewardCoin log set_rewardCoin minted].
    rewrite Hm. repeat split; [exact Hl|now apply sublist_cons|exact Hr].
  - intros v w1 _ (l & m & [Hl Hm] & Hsub & Hr). exists l, m.
    cbn [rewardCoin log set_balance]. repeat split; assumption.
Qed.

Lemma only_settlements_mint block_timestamp c w :
  valid_call c = true -> mints_directly c = false ->
  exists l,
    adds l (rewards_of asEuint64 l) w
      (fst (transact asEuint64 checkSignatures this block_timestamp c w))
    /\ rewards_as_computed l.
Proof.
  intros Hvalid Hdirect.
  apply (transact_keeps_world asEuint64 checkSignatures this
           (fun c => valid_call c = true /\ mints_directly c = false)
           (fun w1 => exists l,
              adds l (rewards_of asEuint64 l) w w1 /\ rewards_as_computed l));
    [tauto| | | | | | | | | |auto
    |exists []; repeat split; constructor];
    unfold adds, rewards_as_computed.
  - intros s h clr pf acc cs [Hv Hf]. apply valid_call_nested in Hv.
    cbn [mints_directly] in Hf. apply existsb_false_Forall in Hf.
    rewrite Forall_forall in Hv, Hf |- *. intros c1 Hc1. auto.
  - intros s v d t w1 w2 _ (l & [Hl Hm] & Hr) Hstake.
    apply stake_Ok in Hstake as (_ & _ & _ & _ & _ & ->).
    eexists (_ :: _ :: _ :: l).
    cbn [rewardCoin log staked record set_stake set_balance rewards_of].
    rewrite Hl. repeat split; [exact Hm|].
    repeat (constructor; [exact I|]). exact Hr.
  - intros s t w1 w2 _ (l & [Hl Hm] & Hr) Hreq.
    apply requestWithdraw_Ok in Hreq as (_ & _ & _ & _ & ->).
    eexists (_ :: _ :: l).
    cbn [rewardCoin log requested record set_request set_stake rewards_of].
    rewrite Hl. repeat split; [exact Hm|].
    repeat (constructor; [exact I|]). exact Hr.
  - intros h clr w1 _ _ _ (l & [Hl Hm] & Hr).
    eexists (_ :: l).
    cbn [rewardCoin log settled record set_balance delete_stake
      delete_request rewards_of].
    rewrite Hl. repeat split; [exact Hm|].
    constructor; [exact I|exact Hr].
  - intros staker clr w1 _ _ _ (l & [Hl Hm] & Hr).
    eexists (_ :: l).
    cbn [rewardCoin log rewarded record set_rewardCoin minted rewards_of].
    rewrite Hl, Hm. repeat split.
    constructor; [reflexivity|exact Hr].
  - intros s m0 w1 w2 _ (l & [Hl Hm] & Hr) Hset.
    apply setMinter_Ok in Hset as (_ & _ & ->).
    eexists (_ :: l).
    cbn [rewardCoin log record set_rewardCoin minted rewards_of].
    rewrite Hl. repeat split; [exact Hm|].
    constructor; [exact I|exact Hr].
  - intros s o w1 w2 _ (l & [Hl Hm] & Hr) Hset.
    apply transferOwnership_Ok in Hset as (_ & _ & ->).
    eexists (_ :: l).
    cbn [rewardCoin log record set_rewardCoin minted rewards_of].
    rewrite Hl. repeat split; [exact Hm|].
    constructor; [exact I|exact Hr].
  - intros s to a w1 w2 [_ Hf] _. discriminate.
  - intros v w1 _ (l & [Hl Hm] & Hr). exists l.
    cbn [rewardCoin log set_balance]. repeat split; assumption.
Qed.

(** X2: every settlement mints its reward.  Whatever a valid
    transaction does, calls of its payees and mints sent to the
    RewardCoin from outside included, the rewards of the
    [WithdrawFinalized] events it adds to the log are, in order, among
    the mints it adds to the RewardCoin's record, and each such event
    carries the reward [floor(amount * 1000e6 / 1e18)] of its amount;
    and when no [mint] is sent from outside, the mints it adds are
    exactly those rewards. *)
Theorem settlements_mint_their_rewards block_timestamp c w :
  valid_call c = true ->
  let w' := fst (transact asEuint64 checkSignatures this block_timestamp c w) in
  (exists l m,
     log w' = l ++ log w
     /\ minted (rewardCoin w') = m ++ minted (rewardCoin w)
     /\ rewards_of asEuint64 l `sublist_of` m
     /\ rewards_as_computed l)
  /\ (mints_directly c = false ->
      exists l,
        log w' = l ++ log w
        /\ minted (rewardCoin w')
           = rewards_of asEuint64 l ++ minted (rewardCoin w)
        /\ rewards_as_computed l).
Proof.
  intros Hvalid. cbv zeta. split.
  - destruct (settlements_are_minted block_timestamp c w Hvalid)
      as (l & m & [Hl Hm] & Hsub & Hr).
    exists l, m. auto.
  - intros Hdirect.
    destruct (only_settlements_mint block_timestamp c w Hvalid Hdirect)
      as (l & [Hl Hm] & Hr).
    exists l. auto.
Qed.

(** X3: a transaction in which no [setMinter] and no [transferOwnership]
    is sent by the RewardCoin's owner, at the top or from a payee that
    is being paid, leaves the owner and the minter as they were. *)
Theorem only_the_owner_administers block_timestamp c w :
  valid_call c = true ->
  administers (owner (rewardCoin w)) c = false ->
  let w' := fst (transact asEuint64 checkSignatures this block_timestamp c w) in
  owner (rewardCoin w') = owner (rewardCoin w)
  /\ minter (rewardCoin w') = minter (rewardCoin w).
Proof.
  intros Hvalid Hadmin. cbv zeta.
  apply (transact_keeps_world asEuint64 checkSignatures this
           (fun c => valid_call c = true
                     /\ administers (owner (rewardCoin w)) c = false)
           (fun w1 => owner (rewardCoin w1) = owner (rewardCoin w)
                      /\ minter (rewardCoin w1) = minter (rewardCoin w)));
    [tauto| | | | | | | | | |auto|auto].
  - intros s h clr pf acc cs [Hv Ha].
    apply valid_call_nested in Hv. cbn [administers] in Ha.
    rewrite Forall_forall in Hv |- *. intros c1 Hc1. split; [now apply Hv|].
    destruct (administers (owner (rewardCoin w)) c1) eqn:Hc; [|reflexivity].
    rewrite <- Ha. symmetry. apply existsb_exists. exists c1.
    split; [now apply list_elem_of_In|exact Hc].
  - intros s v d t w1 w2 _ Hk Hstake.
    apply stake_Ok in Hstake as (_ & _ & _ & _ & _ & ->). exact Hk.
  - intros s t w1 w2 _ Hk Hreq.
    apply requestWithdraw_Ok in Hreq as (_ & _ & _ & _ & ->). exact Hk.
  - intros h clr w1 _ _ _ Hk. exact Hk.
  - intros staker clr w1 _ _ _ Hk. exact Hk.
  - intros s m w1 w2 [_ Ha] [Ho _] Hset.
    apply setMinter_Ok in Hset as (Hs & _ & _).
    cbn [administers] in Ha. apply Z.eqb_neq in Ha. congruence.
  - intros s o w1 w2 [_ Ha] [Ho _] Hset.
    apply transferOwnership_Ok in Hset as (Hs & _ & _).
    cbn [administers] in Ha. apply Z.eqb_neq in Ha. congruence.
  - intros s to a w1 w2 _ Hk Hmint.
    apply mint_Ok in Hmint as (_ & _ & ->). exact Hk.
  - intros v w1 _ Hk. exact Hk.
Qed.

(** X4: no valid call, whatever it nests, sets the owner or the minter of
    the RewardCoin to [address(0)]: an owner other than [address(0)]
    stays one, and so does a minter. *)
Theorem roles_never_zeroed block_timestamp c w :
  valid_call c = true ->
  let w' := fst (transact asEuint64 checkSignatures this block_timestamp c w) in
  (owner (rewardCoin w) <> 0 -> owner (rewardCoin w') <> 0)
  /\ (minter (rewardCoin w) <> 0 -> minter (rewardCoin w') <> 0).
Proof.
  intros Hvalid. cbv zeta. split; intros Hrole; revert Hrole.
  - apply (transact_keeps_world asEuint64 checkSignatures this
             (fun c => valid_call c = true)
             (fun w1 => owner (rewardCoin w1) <> 0));
      [auto|apply valid_call_nested| | | | | | | | |exact Hvalid].
    + intros s v d t w1 w2 _ Hk Hstake.
      apply stake_Ok in Hstake as (_ & _ & _ & _ & _ & ->). exact Hk.
    + intros s t w1 w2 _ Hk Hreq.
      apply requestWithdraw_Ok in Hreq as (_ & _ & _ & _ & ->). exact Hk.
    + intros h clr w1 _ _ _ Hk. exact Hk.
    + intros staker clr w1 _ _ _ Hk. exact Hk.
    + intros s m w1 w2 _ Hk Hset.
      apply setMinter_Ok in Hset as (_ & _ & ->). exact Hk.
    + intros s o w1 w2 _ Hk Hset.
      apply transferOwnership_Ok in Hset as (_ & Ho & ->). exact Ho.
    + intros s to a w1 w2 _ Hk Hmint.
      apply mint_Ok in Hmint as (_ & _ & ->). exact Hk.
    + intros v w1 _ Hk. exact Hk.
  - apply (transact_keeps_world asEuint64 checkSignatures this
             (fun c => valid_call c = true)
             (fun w1 => minter (rewardCoin w1) <> 0));
      [auto|apply valid_call_nested| | | | | | | | |exact Hvalid].
    + intros s v d t w1 w2 _ Hk Hstake.
      apply stake_Ok in Hstake as (_ & _ & _ & _ & _ & ->). exact Hk.
    + intros s t w1 w2 _ Hk Hreq.
      apply requestWithdraw_Ok in Hreq as (_ & _ & _ & _ & ->). exact Hk.
    + intros h clr w1 _ _ _ Hk. exact Hk.
    + intros staker clr w1 _ _ _ Hk. exact Hk.
    + intros s m w1 w2 _ Hk Hset.
      apply setMinter_Ok in Hset as (_ & Hm & ->). exact Hm.
    + intros s o w1 w2 _ Hk Hset.
      apply transferOwnership_Ok in Hset as (_ & _ & ->). exact Hk.
    + intros s to a w1 w2 _ Hk Hmint.
      apply mint_Ok in Hmint as (_ & _ & ->). exact Hk.
    + intros v w1 _ Hk. exact Hk.
Qed.

End Accounting.

(** ** The entry points of the staking contract *)

Section StakingCoverage.

Variable asEuint64 : Z -> euint64.
Variable checkSignatures : euint64 -> Z -> bytes -> bool.
Variable this : address.

Lemma fresh_position a w : _stakes w = ∅ -> stake_of a w = zero_position.
Proof. intros Hw. unfold stake_of. now rewrite Hw, lookup_empty. Qed.

(** X5: the constructor reverts with [InvalidAddress] on [address(0)]; on
    any other address it leaves a ledger that refers to the given
    RewardCoin and in which [getStake] returns the zero handle, unlock
    time [0] and both flags [false] for every account, [canWithdraw] is
    [false] at every time, every [requestWithdraw] fails with
    [NoActiveStake] and every [finalizeWithdraw] fails with
    [InvalidWithdrawRequest]. *)
Theorem constructor_fresh_ledger rewardCoinAddress coin funds :
  (rewardCoinAddress = 0 ->
   constructor rewardCoinAddress coin funds = Revert InvalidAddress)
  /\ (rewardCoinAddress <> 0 ->
      exists w,
        constructor rewardCoinAddress coin funds = Ok w
        /\ rewardCoin w = coin
        /\ forall (a : address) block_timestamp,
             getStake a w = (0, 0, false, false)
             /\ canWithdraw a block_timestamp w = false
             /\ requestWithdraw a block_timestamp w = Revert NoActiveStake
             /\ forall (payee : Recipient) h clearAmount decryptionProof,
                  finalizeWithdraw asEuint64 checkSignatures this payee a h
                    clearAmount decryptionProof w
                  = Revert InvalidWithdrawRequest).
Proof.
  unfold constructor. split.
  - intros ->. reflexivity.
  - intros Hnonzero.
    replace (rewardCoinAddress =? 0) with false
      by (symmetry; now apply Z.eqb_neq).
    eexists. split; [reflexivity|]. split; [reflexivity|]. intros a t.
    set (w := {| _stakes := ∅; _withdrawRequests := ∅; balance := funds;
                 rewardCoin := coin; log := [] |}).
    assert (Hzero : stake_of a w = zero_position) by now apply fresh_position.
    split; [unfold getStake; now rewrite Hzero|].
    split; [unfold canWithdraw; now rewrite Hzero|].
    split; [rewrite requestWithdraw_cases; cbv zeta; now rewrite Hzero|].
    intros payee h clearAmount decryptionProof.
    apply unknown_handle_rejected. unfold request_of. cbn [_withdrawRequests w].
    now rewrite lookup_empty.
Qed.

(** X6: [canWithdraw] decides the first three checks of
    [requestWithdraw]: where it is [true] the request goes through,
    unless the position's handle is already in the pending-withdrawal
    index; where it is [false] the request is turned away with
    [NoActiveStake], [WithdrawAlreadyRequested] or [WithdrawNotReady],
    in this order of the checks. *)
Theorem canWithdraw_decides_requestWithdraw staker block_timestamp w :
  (canWithdraw staker block_timestamp w = true ->
   requestWithdraw staker block_timestamp w
   = if request_of (amount (stake_of staker w)) w =? 0
     then Ok (tt, requested staker w)
     else Revert InvalidWithdrawRequest)
  /\ (canWithdraw staker block_timestamp w = false ->
      requestWithdraw staker block_timestamp w
      = Revert (if negb (active (stake_of staker w)) then NoActiveStake
                else if withdrawRequested (stake_of staker w)
                     then WithdrawAlreadyRequested
                     else WithdrawNotReady)).
Proof.
  split; [apply canWithdraw_requestWithdraw|].
  unfold canWithdraw. cbv zeta. rewrite requestWithdraw_cases. cbv zeta.
  destruct (active (stake_of staker w)); [|reflexivity].
  destruct (withdrawRequested (stake_of staker w)); [reflexivity|].
  cbn [negb andb].
  destruct (unlockTimestamp (stake_of staker w) <=? block_timestamp) eqn:Hlate;
    [discriminate|].
  intros _. apply Z.leb_gt in Hlate.
  now replace (block_timestamp <? unlockTimestamp (stake_of staker w))
    with true by (symmetry; apply Z.ltb_lt; lia).
Qed.

(** X7: while an account's position is active no [stake] of the account
    goes through, whatever the value, the duration and the time: the
    transaction reverts and leaves the world, the position included, as
    it was; with a valid value and duration the error is
    [ActiveStakeExists]. *)
Theorem active_position_blocks_stake msg_sender w :
  active (stake_of msg_sender w) = true ->
  forall block_timestamp msg_value lockDurationSeconds,
  exists e,
    transact asEuint64 checkSignatures this block_timestamp
      (Stake msg_sender msg_value lockDurationSeconds) w = (w, Some e)
    /\ (0 < msg_value <= UINT64_MAX -> lockDurationSeconds <> 0 ->
        e = ActiveStakeExists).
Proof.
  intros Hactive t v d. unfold transact. cbn [exec].
  rewrite stake_cases, Hactive.
  destruct ((v =? 0) || (UINT64_MAX <? v)) eqn:Hv.
  - eexists. split; [reflexivity|]. intros [Hpos Hfit] _.
    apply orb_true_iff in Hv as [Hv|Hv];
      [apply Z.eqb_eq in Hv|apply Z.ltb_lt in Hv]; lia.
  - destruct (d =? 0) eqn:Hd.
    + eexists. split; [reflexivity|]. intros _ Hd'.
      apply Z.eqb_eq in Hd. contradiction.
    + eexists. split; reflexivity.
Qed.

(** X8: a [stake] of a non-negative value goes through exactly when the
    value is positive and fits 64 bits, the duration is not zero, the
    sender has no active position and the 64-bit timestamp plus the
    duration fits 64 bits; when only the last condition fails the call
    reverts with the arithmetic [Panic]. *)
Theorem stake_goes_through_iff msg_sender msg_value block_timestamp
    lockDurationSeconds w :
  0 <= msg_value ->
  ((exists w',
      stake asEuint64 this msg_sender msg_value block_timestamp
        lockDurationSeconds w = Ok (tt, w'))
   <-> (0 < msg_value <= UINT64_MAX /\ lockDurationSeconds <> 0
        /\ active (stake_of msg_sender w) = false
        /\ to_uint64 block_timestamp + lockDurationSeconds <= UINT64_MAX))
  /\ (0 < msg_value <= UINT64_MAX -> lockDurationSeconds <> 0 ->
      active (stake_of msg_sender w) = false ->
      UINT64_MAX < to_uint64 block_timestamp + lockDurationSeconds ->
      stake asEuint64 this msg_sender msg_value block_timestamp
        lockDurationSeconds w = Revert Panic).
Proof.
  intros Hvalue. split; [split|].
  - intros [w' Hstake].
    apply stake_Ok in Hstake as (Hv & Hfit & Hd & Hactive & Hover & _).
    repeat split; (assumption || lia).
  - intros ([Hpos Hfit] & Hd & Hactive & Hover). rewrite stake_cases, Hactive.
    replace (msg_value =? 0) with false by (symmetry; apply Z.eqb_neq; lia).
    replace (UINT64_MAX <? msg_value) with false
      by (symmetry; apply Z.ltb_ge; lia).
    replace (lockDurationSeconds =? 0) with false
      by (symmetry; now apply Z.eqb_neq).
    replace (UINT64_MAX <? to_uint64 block_timestamp + lockDurationSeconds)
      with false by (symmetry; apply Z.ltb_ge; lia).
    eexists. reflexivity.
  - intros [Hpos Hfit] Hd Hactive Hover. rewrite stake_cases, Hactive.
    replace (msg_value =? 0) with false by (symmetry; apply Z.eqb_neq; lia).
    replace (UINT64_MAX <? msg_value) with false
      by (symmetry; apply Z.ltb_ge; lia).
    replace (lockDurationSeconds =? 0) with false
      by (symmetry; now apply Z.eqb_neq).
    now replace (UINT64_MAX <? to_uint64 block_timestamp + lockDurationSeconds)
      with true by (symmetry; apply Z.ltb_lt; lia).
Qed.

(** X9: after a [stake] at a 64-bit block time [t] with lock duration
    [d], [canWithdraw] of the staker is [true] exactly at the times from
    [t + d] on, and every [requestWithdraw] of the staker before
    [t + d], in the block of the stake to begin with, fails with
    [WithdrawNotReady]. *)
Theorem lock_holds_after_stake msg_sender msg_value block_timestamp
    lockDurationSeconds w w' :
  is_uint64 block_timestamp -> 0 <= lockDurationSeconds ->
  stake asEuint64 this msg_sender msg_value block_timestamp
    lockDurationSeconds w = Ok (tt, w') ->
  (forall later,
     canWithdraw msg_sender later w'
     = (block_timestamp + lockDurationSeconds <=? later))
  /\ (forall earlier,
        earlier < block_timestamp + lockDurationSeconds ->
        requestWithdraw msg_sender earlier w' = Revert WithdrawNotReady)
  /\ requestWithdraw msg_sender block_timestamp w' = Revert WithdrawNotReady.
Proof.
  intros Htime Hduration Hstake.
  apply stake_Ok in Hstake as (_ & _ & Hd & _ & _ & ->).
  rewrite (to_uint64_id _ Htime).
  assert (Hposition :
            stake_of msg_sender
              (staked asEuint64 this msg_sender msg_value
                 (block_timestamp + lockDurationSeconds) w)
            = {| amount := asEuint64 (to_uint64 msg_value);
                 unlockTimestamp := block_timestamp + lockDurationSeconds;
                 active := true; withdrawRequested := false |}).
  { unfold stake_of, staked. cbn [_stakes record set_stake].
    now rewrite lookup_insert_eq. }
  assert (Hearly : forall earlier,
            earlier < block_timestamp + lockDurationSeconds ->
            requestWithdraw msg_sender earlier
              (staked asEuint64 this msg_sender msg_value
                 (block_timestamp + lockDurationSeconds) w)
            = Revert WithdrawNotReady).
  { intros earlier Hearlier. rewrite requestWithdraw_cases. cbv zeta.
    rewrite Hposition. cbn [active withdrawRequested unlockTimestamp negb].
    now replace (earlier <? block_timestamp + lockDurationSeconds) with true
      by (symmetry; apply Z.ltb_lt; lia). }
  split; [|split; [exact Hearly|apply Hearly; lia]].
  intros later. unfold canWithdraw. rewrite Hposition.
  cbn [active withdrawRequested unlockTimestamp negb andb].
  now rewrite andb_true_r.
Qed.

Lemma stake_frame msg_sender msg_value block_timestamp lockDurationSeconds
    w w' :
  stake asEuint64 this msg_sender msg_value block_timestamp
    lockDurationSeconds w = Ok (tt, w') ->
  (forall a, a <> msg_sender -> stake_of a w' = stake_of a w)
  /\ (forall h, request_of h w' = request_of h w)
  /\ rewardCoin w' = rewardCoin w
  /\ balance w' = balance w + msg_value.
Proof.
  intros Hstake. apply stake_Ok in Hstake as (_ & _ & _ & _ & _ & ->).
  split; [|repeat split].
  intros a Ha. unfold stake_of, staked. cbn [_stakes record set_stake set_balance].
  now rewrite lookup_insert_ne by congruence.
Qed.

(** X10: a [stake] transaction that goes through writes the sender's
    position and nothing else of the ledger: the position of every other
    account and the whole pending-withdrawal index are as before, the
    RewardCoin is untouched, and the balance has grown by the value
    sent. *)
Theorem stake_writes_own_position msg_sender msg_value block_timestamp
    lockDurationSeconds w :
  let tx :=
    transact asEuint64 checkSignatures this block_timestamp
      (Stake msg_sender msg_value lockDurationSeconds) w in
  snd tx = None ->
  (forall a, a <> msg_sender -> stake_of a (fst tx) = stake_of a w)
  /\ (forall h, request_of h (fst tx) = request_of h w)
  /\ rewardCoin (fst tx) = rewardCoin w
  /\ balance (fst tx) = balance w + msg_value.
Proof.
  cbv zeta. unfold transact.
  destruct (exec _ _ _ block_timestamp _ w) as [[[] w']|e] eqn:Hexec;
    [|discriminate].
  intros _. cbn [fst]. cbn [exec] in Hexec. exact (stake_frame _ _ _ _ _ _ Hexec).
Qed.

Lemma requestWithdraw_frame msg_sender block_timestamp w w' :
  requestWithdraw msg_sender block_timestamp w = Ok (tt, w') ->
  let position := stake_of msg_sender w in
  stake_of msg_sender w'
  = {| amount := amount position; unlockTimestamp := unlockTimestamp position;
       active := true; withdrawRequested := true |}
  /\ request_of (amount position) w' = msg_sender
  /\ (forall a, a <> msg_sender -> stake_of a w' = stake_of a w)
  /\ (forall h, h <> amount position -> request_of h w' = request_of h w)
  /\ balance w' = balance w /\ rewardCoin w' = rewardCoin w.
Proof.
  intros Hreq. cbv zeta.
  apply requestWithdraw_Ok in Hreq as (Hactive & _ & _ & _ & ->).
  unfold stake_of, request_of, requested.
  cbn [_stakes _withdrawRequests record set_request set_stake].
  rewrite !lookup_insert_eq. cbn [default]. fold (stake_of msg_sender w).
  rewrite Hactive. repeat split.
  - intros a Ha. now rewrite lookup_insert_ne by congruence.
  - intros h Hh. now rewrite lookup_insert_ne by congruence.
Qed.

(** X11: a [requestWithdraw] transaction that goes through sets the flag
    of the caller's position, keeping its handle and unlock time, and
    enters the caller under that handle; the positions of the other
    accounts, the entries of the other handles, the balance and the
    RewardCoin are as before. *)
Theorem requestWithdraw_writes_own_entry msg_sender block_timestamp w :
  let tx :=
    transact asEuint64 checkSignatures this block_timestamp
      (RequestWithdraw msg_sender) w in
  let position := stake_of msg_sender w in
  snd tx = None ->
  stake_of msg_sender (fst tx)
  = {| amount := amount position; unlockTimestamp := unlockTimestamp position;
       active := true; withdrawRequested := true |}
  /\ request_of (amount position) (fst tx) = msg_sender
  /\ (forall a, a <> msg_sender -> stake_of a (fst tx) = stake_of a w)
  /\ (forall h, h <> amount position ->
        request_of h (fst tx) = request_of h w)
  /\ balance (fst tx) = balance w /\ rewardCoin (fst tx) = rewardCoin w.
Proof.
  cbv zeta. unfold transact.
  destruct (exec _ _ _ block_timestamp _ w) as [[[] w']|e] eqn:Hexec;
    [|discriminate].
  intros _. cbn [fst]. cbn [exec] in Hexec.
  exact (requestWithdraw_frame _ _ _ _ Hexec).
Qed.

End StakingCoverage.

(** ** Settlement *)

Section SettlementCoverage.

Variable asEuint64 : Z -> euint64.
Variable checkSignatures : euint64 -> Z -> bytes -> bool.
Variable this : address.

(** X12: only [finalizeWithdraw] takes a pending withdrawal away: a
    transaction that is any other call, or value forced into the
    contract, leaves every entry of the
    pending-withdrawal index in place, and leaves every position that is
    active and requested exactly as it was. *)
Theorem pending_leaves_only_by_settlement block_timestamp c w :
  is_FinalizeWithdraw c = false ->
  let w' := fst (transact asEuint64 checkSignatures this block_timestamp c w) in
  (forall h, request_of h w <> 0 -> request_of h w' = request_of h w)
  /\ (forall a,
        active (stake_of a w) = true ->
        withdrawRequested (stake_of a w) = true ->
        stake_of a w' = stake_of a w).
Proof.
  intros Hother. cbv zeta. unfold transact.
  destruct (exec _ _ _ block_timestamp c w) as [[[] w']|e] eqn:Hexec;
    cbn [fst]; [|auto].
  destruct c as [s v d|s|s h clr pf acc cs|s v|s m|s o|s to a|v];
    cbn [exec] in Hexec;
    try discriminate.
  - pose proof (stake_frame _ _ _ _ _ _ _ _ Hexec)
      as (Hframe & Hindex & _).
    apply stake_Ok in Hexec as (_ & _ & _ & Hinactive & _).
    split; [intros h _; apply Hindex|].
    intros a Hactive _. apply Hframe. congruence.
  - pose proof (requestWithdraw_frame _ _ _ _ Hexec)
      as (_ & _ & Hframe & Hindex & _).
    apply requestWithdraw_Ok in Hexec as (_ & Hnot & _ & Hfree & _).
    split.
    + intros h Hh. apply Hindex. congruence.
    + intros a _ Hreq. apply Hframe. congruence.
  - apply setMinter_Ok in Hexec as (_ & _ & ->). auto.
  - apply transferOwnership_Ok in Hexec as (_ & _ & ->). auto.
  - apply mint_Ok in Hexec as (_ & _ & ->). auto.
  - unfold force_value in Hexec. unfold_M_in Hexec. injection Hexec as <-.
    auto.
Qed.

(** The world in which the payee is called holds neither the handle nor
    the position. *)
Lemma settled_before_paying h clr w :
  request_of h (settled h clr w) = 0
  /\ stake_of (request_of h w) (settled h clr w) = zero_position.
Proof.
  split.
  - rewrite (request_of_ledger _ _ (delete_request h w)) by reflexivity.
    rewrite request_of_delete_request, decide_True; reflexivity.
  - rewrite (stake_of_ledger _ _
      (delete_stake (request_of h w) (delete_request h w))) by reflexivity.
    rewrite stake_of_delete_stake, decide_True; reflexivity.
Qed.

Lemma run_calls_cons (step : Call -> M unit) c cs w :
  run_calls step (c :: cs) w = run_calls step cs (attempt (step c) w).
Proof. reflexivity. Qed.

(** X13: the handle and the position are deleted before the payee is
    paid, so a payee that calls [finalizeWithdraw] again on the handle
    being settled, as the first thing it does, is turned away: the
    settlement has the result it has without that call, whoever sends
    it and whatever it carries. *)
Theorem reentrant_settlement_is_turned_away block_timestamp msg_sender
    amount' clearAmount decryptionProof accepts reentrant
    attacker clearAmount' decryptionProof' accepts' reentrant' w :
  is_uint64 clearAmount ->
  exec asEuint64 checkSignatures this block_timestamp
    (FinalizeWithdraw msg_sender amount' clearAmount decryptionProof accepts
       (FinalizeWithdraw attacker amount' clearAmount' decryptionProof'
          accepts' reentrant' :: reentrant)) w
  = exec asEuint64 checkSignatures this block_timestamp
      (FinalizeWithdraw msg_sender amount' clearAmount decryptionProof accepts
         reentrant) w.
Proof.
  intros Hclear. cbn [exec].
  rewrite !(finalizeWithdraw_cases _ _ _ _ _ _ _ _ _ Hclear). cbv zeta.
  assert (Hturned :
            attempt
              (exec asEuint64 checkSignatures this block_timestamp
                 (FinalizeWithdraw attacker amount' clearAmount'
                    decryptionProof' accepts' reentrant'))
              (settled amount' clearAmount w)
            = settled amount' clearAmount w).
  { unfold attempt. cbn [exec].
    now rewrite (unknown_handle_rejected _ _ _ _ _ _ _ _ _
                   (proj1 (settled_before_paying amount' clearAmount w))). }
  unfold payee_of. rewrite run_calls_cons, Hturned. reflexivity.
Qed.

Lemma settlement_frame block_timestamp msg_sender amount' clearAmount
    decryptionProof w w' :
  is_uint64 clearAmount ->
  exec asEuint64 checkSignatures this block_timestamp
    (FinalizeWithdraw msg_sender amount' clearAmount decryptionProof true [])
    w = Ok (tt, w') ->
  (forall a, a <> request_of amount' w -> stake_of a w' = stake_of a w)
  /\ (forall h, h <> amount' -> request_of h w' = request_of h w)
  /\ owner (rewardCoin w') = owner (rewardCoin w)
  /\ minter (rewardCoin w') = minter (rewardCoin w).
Proof.
  intros Hclear Hexec.
  apply (finalizeWithdraw_Ok _ _ _ _ _ _ _ _ _ _ _ _ Hclear) in Hexec
    as (_ & _ & _ & _ & _ & _ & ->).
  cbn [run_calls]. split; [|split; [|split; reflexivity]].
  - intros a Ha.
    rewrite (stake_of_ledger a _
      (delete_stake (request_of amount' w) (delete_request amount' w)))
      by reflexivity.
    rewrite stake_of_delete_stake, decide_False by congruence. reflexivity.
  - intros h Hh.
    rewrite (request_of_ledger h _ (delete_request amount' w)) by reflexivity.
    rewrite request_of_delete_request, decide_False by congruence. reflexivity.
Qed.

(** X14: a settlement whose payee does not call back deletes the
    staker's position and the handle's entry and nothing else of the
    ledger: when the transaction goes through, the positions of the
    other accounts and the entries of the other handles are as before,
    and so are the owner and the minter of the RewardCoin. *)
Theorem settlement_deletes_one_position block_timestamp msg_sender amount'
    clearAmount decryptionProof w :
  let tx :=
    transact asEuint64 checkSignatures this block_timestamp
      (FinalizeWithdraw msg_sender amount' clearAmount decryptionProof true [])
      w in
  is_uint64 clearAmount -> snd tx = None ->
  (forall a, a <> request_of amount' w -> stake_of a (fst tx) = stake_of a w)
  /\ (forall h, h <> amount' -> request_of h (fst tx) = request_of h w)
  /\ owner (rewardCoin (fst tx)) = owner (rewardCoin w)
  /\ minter (rewardCoin (fst tx)) = minter (rewardCoin w).
Proof.
  cbv zeta. intros Hclear. unfold transact.
  destruct (exec _ _ _ block_timestamp _ w) as [[[] w']|e] eqn:Hexec;
    [|discriminate].
  intros _. cbn [fst]. exact (settlement_frame _ _ _ _ _ _ _ Hclear Hexec).
Qed.

(** X15: no settlement goes through without a verified proof: when a
    [finalizeWithdraw] transaction succeeds, whatever its payee did, the
    proof verified for the handle and the clear amount, the handle was
    pending for a staker whose position was active and requested, the
    balance covered the payout and the payee accepted it; and with a
    proof that does not verify, a pending handle is left pending and the
    transaction reverts with the error of [FHE.checkSignatures]. *)
Theorem settlement_needs_a_verified_proof block_timestamp msg_sender amount'
    clearAmount decryptionProof accepts reentrant w :
  is_uint64 clearAmount ->
  (snd (transact asEuint64 checkSignatures this block_timestamp
          (FinalizeWithdraw msg_sender amount' clearAmount decryptionProof
             accepts reentrant) w) = None ->
   checkSignatures amount' clearAmount decryptionProof = true
   /\ request_of amount' w <> 0
   /\ active (stake_of (request_of amount' w) w) = true
   /\ withdrawRequested (stake_of (request_of amount' w) w) = true
   /\ clearAmount <= balance w /\ accepts = true)
  /\ (request_of amount' w <> 0 ->
      active (stake_of (request_of amount' w) w) = true ->
      withdrawRequested (stake_of (request_of amount' w) w) = true ->
      checkSignatures amount' clearAmount decryptionProof = false ->
      transact asEuint64 checkSignatures this block_timestamp
        (FinalizeWithdraw msg_sender amount' clearAmount decryptionProof
           accepts reentrant) w = (w, Some InvalidSignatures)).
Proof.
  intros Hclear. unfold transact. split.
  - destruct (exec _ _ _ block_timestamp _ w) as [[[] w']|e] eqn:Hexec;
      [|discriminate].
    intros _.
    apply (finalizeWithdraw_Ok _ _ _ _ _ _ _ _ _ _ _ _ Hclear) in Hexec.
    tauto.
  - intros Hstaker Hactive Hreq Hproof. cbn [exec].
    rewrite (finalizeWithdraw_cases _ _ _ _ _ _ _ _ _ Hclear). cbv zeta.
    replace (request_of amount' w =? 0) with false
      by (symmetry; now apply Z.eqb_neq).
    now rewrite Hactive, Hreq, Hproof.
Qed.

(** X16: in every reachable state an account has at most one pending
    withdrawal: where the index holds an account under one handle, it
    does not hold it under any other. *)
Theorem one_pending_handle_per_account w (h1 h2 : euint64) (a : address) :
  reachable asEuint64 checkSignatures this w ->
  a <> 0 -> request_of h1 w = a -> h2 <> h1 -> request_of h2 w <> a.
Proof.
  intros Hreach Ha H1 Hne H2.
  pose proof (pending_iff_requested_reachable _ _ _ w Hreach) as Hinv.
  apply (Hinv h1 a Ha) in H1 as (_ & _ & <-).
  apply (Hinv h2 a Ha) in H2 as (_ & _ & <-). contradiction.
Qed.

(** X17: the whole cycle.  An account other than address(0) and without
    an active position stakes a valid value for a positive lock, at a
    64-bit time at which the unlock time still fits in 64 bits, requests
    the withdrawal once the lock has run out and has its withdrawal
    settled with a proof that verifies for the handle of the value, by
    any relayer, the payout accepted without a call back.  Provided that
    at the start the handle of the value is not in the pending-withdrawal
    index, the balance is not negative and the staking contract is the
    minter of the RewardCoin, the three transactions go through, and at
    the end the account's position is the zero position, the positions
    of the other accounts and the whole pending-withdrawal index are as
    they were at the start, the balance is back at its value, and the
    RewardCoin has recorded one more mint, of the reward of the value to
    the account. *)
Theorem stake_request_settle msg_sender relayer msg_value lockDurationSeconds
    staked_at requested_at settled_at decryptionProof w :
  let h := asEuint64 msg_value in
  let stake_tx :=
    transact asEuint64 checkSignatures this staked_at
      (Stake msg_sender msg_value lockDurationSeconds) w in
  let request_tx :=
    transact asEuint64 checkSignatures this requested_at
      (RequestWithdraw msg_sender) (fst stake_tx) in
  let settle_tx :=
    transact asEuint64 checkSignatures this settled_at
      (FinalizeWithdraw relayer h msg_value decryptionProof true [])
      (fst request_tx) in
  msg_sender <> 0 -> active (stake_of msg_sender w) = false ->
  0 < msg_value <= UINT64_MAX -> 0 < lockDurationSeconds ->
  is_uint64 staked_at -> staked_at + lockDurationSeconds <= UINT64_MAX ->
  staked_at + lockDurationSeconds <= requested_at ->
  request_of h w = 0 ->
  checkSignatures h msg_value decryptionProof = true ->
  0 <= balance w -> minter (rewardCoin w) = this ->
  snd stake_tx = None /\ snd request_tx = None /\ snd settle_tx = None
  /\ getStake msg_sender (fst settle_tx) = (0, 0, false, false)
  /\ (forall a, a <> msg_sender ->
        stake_of a (fst settle_tx) = stake_of a w)
  /\ (forall h', request_of h' (fst settle_tx) = request_of h' w)
  /\ balance (fst settle_tx) = balance w
  /\ minted (rewardCoin (fst settle_tx))
     = (msg_sender, asEuint64 (rewardAmount msg_value))
       :: minted (rewardCoin w)
  /\ NativeTransfer msg_sender msg_value ∈ log (fst settle_tx).
Proof.
  intros h stake_tx request_tx settle_tx Hsender Hinactive Hvalue Hlock Htime
    Hunlock Hlate Hfree Hproof Hbalance Hminter.
  assert (Hclear : is_uint64 msg_value) by (unfold is_uint64; lia).
  (* the stake *)
  pose proof (stake_succeeds asEuint64 this msg_sender msg_value staked_at
                lockDurationSeconds w Hinactive Hvalue Hlock) as Hstake.
  rewrite (to_uint64_id _ Htime) in Hstake. specialize (Hstake Hunlock).
  set (w1 := staked asEuint64 this msg_sender msg_value
               (staked_at + lockDurationSeconds) w) in *.
  assert (Hstake_tx : stake_tx = (w1, None)).
  { unfold stake_tx, transact. cbn [exec]. rewrite Hstake. reflexivity. }
  pose proof (stake_frame _ _ _ _ _ _ _ _ Hstake)
    as (Hframe1 & Hindex1 & Hcoin1 & Hbalance1).
  assert (Hposition1 :
            stake_of msg_sender w1
            = {| amount := h; unlockTimestamp := staked_at + lockDurationSeconds;
                 active := true; withdrawRequested := false |}).
  { unfold stake_of, w1, staked, h. cbn [_stakes record set_stake].
    rewrite lookup_insert_eq. cbn [default].
    rewrite (to_uint64_id _ Hclear). reflexivity. }
  (* the request *)
  assert (Hrequest : requestWithdraw msg_sender requested_at w1
                     = Ok (tt, requested msg_sender w1)).
  { rewrite requestWithdraw_cases. cbv zeta. rewrite Hposition1.
    cbn [active withdrawRequested unlockTimestamp amount negb].
    replace (requested_at <? staked_at + lockDurationSeconds) with false
      by (symmetry; apply Z.ltb_ge; lia).
    rewrite Hindex1, Hfree. reflexivity. }
  set (w2 := requested msg_sender w1) in *.
  assert (Hrequest_tx : request_tx = (w2, None)).
  { unfold request_tx. rewrite Hstake_tx. cbn [fst]. unfold transact.
    cbn [exec]. rewrite Hrequest. reflexivity. }
  pose proof (requestWithdraw_frame _ _ _ _ Hrequest)
    as (Hposition2 & Hentry2 & Hframe2 & Hindex2 & Hbalance2 & Hcoin2).
  cbv zeta in Hposition2, Hentry2, Hindex2.
  rewrite Hposition1 in Hposition2, Hentry2, Hindex2.
  cbn [amount unlockTimestamp] in Hposition2, Hentry2, Hindex2.
  (* the settlement *)
  assert (Hsettle :
            exec asEuint64 checkSignatures this settled_at
              (FinalizeWithdraw relayer h msg_value decryptionProof true []) w2
            = Ok (tt, rewarded asEuint64 (request_of h w2) msg_value
                        (settled h msg_value w2))).
  { apply settlement_goes_through.
    - rewrite Hentry2. exact Hsender.
    - rewrite Hentry2, Hposition2. reflexivity.
    - rewrite Hentry2, Hposition2. reflexivity.
    - exact Hproof.
    - exact Hclear.
    - rewrite Hbalance2, Hbalance1. lia.
    - rewrite Hcoin2, Hcoin1. exact Hminter. }
  assert (Hsettle_tx :
            settle_tx = (rewarded asEuint64 (request_of h w2) msg_value
                           (settled h msg_value w2), None)).
  { unfold settle_tx. rewrite Hrequest_tx. cbn [fst]. unfold transact.
    rewrite Hsettle. reflexivity. }
  pose proof (settlement_frame _ _ _ _ _ _ _ Hclear Hsettle)
    as (Hframe3 & Hindex3 & _).
  rewrite Hstake_tx, Hrequest_tx, Hsettle_tx. cbn [fst snd].
  split; [reflexivity|]. split; [reflexivity|]. split; [reflexivity|].
  split; [|split; [|split; [|split; [|split]]]].
  - unfold getStake.
    rewrite (stake_of_ledger _ _ (settled h msg_value w2)) by reflexivity.
    pose proof (settled_before_paying h msg_value w2) as [_ Hzero].
    rewrite Hentry2 in Hzero. rewrite Hzero. reflexivity.
  - intros a Ha. rewrite Hframe3 by (rewrite Hentry2; exact Ha).
    rewrite Hframe2, Hframe1 by exact Ha. reflexivity.
  - intros h'. destruct (decide (h' = h)) as [->|Hne].
    + rewrite (request_of_ledger _ _ (settled h msg_value w2)) by reflexivity.
      rewrite (proj1 (settled_before_paying h msg_value w2)), Hfree.
      reflexivity.
    + rewrite Hindex3, Hindex2, Hindex1 by exact Hne. reflexivity.
  - cbn [balance rewarded record set_rewardCoin settled set_balance
      delete_stake delete_request]. rewrite Hbalance2, Hbalance1. ring.
  - cbn [rewardCoin minted rewarded record set_rewardCoin settled set_balance
      delete_stake delete_request]. rewrite Hentry2, Hcoin2, Hcoin1.
    reflexivity.
  - cbn [log rewarded record set_rewardCoin settled]. rewrite Hentry2.
    apply elem_of_cons. right. apply elem_of_cons. left. reflexivity.
Qed.

End SettlementCoverage.

(** ** RewardCoin and the deployment *)

Section RewardCoinCoverage.

Variable asEuint64 : Z -> euint64.
Variable checkSignatures : euint64 -> Z -> bytes -> bool.

(** X18: [setMinter] is the owner's alone: sent by anyone else it
    reverts with [Unauthorized], whatever the new minter; sent by the
    owner it reverts with [InvalidAddress] for [address(0)], and for any
    other address it sets the minter to it, emits [MinterUpdated] and
    leaves the owner, the recorded mints, the staking ledger and the
    balance as they were. *)
Theorem setMinter_is_the_owners msg_sender newMinter w :
  (msg_sender <> owner (rewardCoin w) ->
   setMinter msg_sender newMinter w = Revert Unauthorized)
  /\ (msg_sender = owner (rewardCoin w) -> newMinter = 0 ->
      setMinter msg_sender newMinter w = Revert InvalidAddress)
  /\ (msg_sender = owner (rewardCoin w) -> newMinter <> 0 ->
      exists w',
        setMinter msg_sender newMinter w = Ok (tt, w')
        /\ minter (rewardCoin w') = newMinter
        /\ owner (rewardCoin w') = owner (rewardCoin w)
        /\ minted (rewardCoin w') = minted (rewardCoin w)
        /\ _stakes w' = _stakes w
        /\ _withdrawRequests w' = _withdrawRequests w
        /\ balance w' = balance w
        /\ log w' = MinterUpdated newMinter :: log w).
Proof.
  unfold setMinter, onlyOwner. unfold_M. split; [|split].
  - intros Hother.
    now replace (msg_sender =? owner (rewardCoin w)) with false
      by (symmetry; now apply Z.eqb_neq).
  - intros -> ->. now rewrite Z.eqb_refl.
  - intros -> Hnonzero. rewrite Z.eqb_refl. cbn [negb].
    replace (newMinter =? 0) with false by (symmetry; now apply Z.eqb_neq).
    eexists. split; [reflexivity|]. repeat split.
Qed.

(** X19: [transferOwnership] hands the RewardCoin over: sent by anyone
    but the owner it reverts with [Unauthorized], to [address(0)] it
    reverts with [InvalidAddress]; once it has gone through to another
    account, that account is the owner, the minter is unchanged, the
    former owner's [setMinter] and [transferOwnership] revert with
    [Unauthorized], and the new owner's [setMinter] sets the minter. *)
Theorem transferOwnership_hands_over msg_sender newOwner w :
  (msg_sender <> owner (rewardCoin w) ->
   transferOwnership msg_sender newOwner w = Revert Unauthorized)
  /\ (msg_sender = owner (rewardCoin w) -> newOwner = 0 ->
      transferOwnership msg_sender newOwner w = Revert InvalidAddress)
  /\ (forall w',
        transferOwnership msg_sender newOwner w = Ok (tt, w') ->
        owner (rewardCoin w') = newOwner
        /\ minter (rewardCoin w') = minter (rewardCoin w)
        /\ minted (rewardCoin w') = minted (rewardCoin w)
        /\ (newOwner <> msg_sender ->
            forall a,
              setMinter msg_sender a w' = Revert Unauthorized
              /\ transferOwnership msg_sender a w' = Revert Unauthorized)
        /\ (forall a, a <> 0 ->
              exists w'',
                setMinter newOwner a w' = Ok (tt, w'')
                /\ minter (rewardCoin w'') = a
                /\ owner (rewardCoin w'') = newOwner)).
Proof.
  split; [|split].
  - intros Hother. unfold transferOwnership, onlyOwner. unfold_M.
    now replace (msg_sender =? owner (rewardCoin w)) with false
      by (symmetry; now apply Z.eqb_neq).
  - intros -> ->. unfold transferOwnership, onlyOwner. unfold_M.
    now rewrite Z.eqb_refl.
  - intros w' Hmoved.
    apply transferOwnership_Ok in Hmoved as (Hsender & Hnonzero & ->).
    cbn [rewardCoin owner minter minted set_rewardCoin record].
    split; [reflexivity|]. split; [reflexivity|]. split; [reflexivity|]. split.
    + intros Hother a. split.
      * unfold setMinter, onlyOwner. unfold_M.
        cbn [rewardCoin owner set_rewardCoin].
        now replace (msg_sender =? newOwner) with false
          by (symmetry; apply Z.eqb_neq; congruence).
      * unfold transferOwnership, onlyOwner. unfold_M.
        cbn [rewardCoin owner set_rewardCoin].
        now replace (msg_sender =? newOwner) with false
          by (symmetry; apply Z.eqb_neq; congruence).
    + intros a Ha. unfold setMinter, onlyOwner. unfold_M.
      cbn [rewardCoin owner set_rewardCoin]. rewrite Z.eqb_refl. cbn [negb].
      replace (a =? 0) with false by (symmetry; now apply Z.eqb_neq).
      eexists. split; [reflexivity|]. split; reflexivity.
Qed.

(** X20: [mint] is the minter's alone: sent by anyone else it reverts
    with [Unauthorized], whatever the recipient and the amount; sent by
    the minter it reverts with [InvalidAddress] for [address(0)] and
    otherwise records one mint of the encrypted amount to the recipient,
    leaving the owner, the minter and the rest of the world as they
    were.  On a RewardCoin as its constructor leaves it, the owner is
    the deployer and no account but [address(0)] can mint. *)
Theorem mint_is_the_minters msg_sender to amount' w :
  (msg_sender <> minter (rewardCoin w) ->
   mint asEuint64 msg_sender to amount' w = Revert Unauthorized)
  /\ (msg_sender = minter (rewardCoin w) -> to = 0 ->
      mint asEuint64 msg_sender to amount' w = Revert InvalidAddress)
  /\ (msg_sender = minter (rewardCoin w) -> to <> 0 ->
      mint asEuint64 msg_sender to amount' w
      = Ok (tt, set_rewardCoin
                  {| owner := owner (rewardCoin w);
                     minter := minter (rewardCoin w);
                     minted := (to, asEuint64 amount')
                                 :: minted (rewardCoin w) |} w))
  /\ (forall deployer,
        rewardCoin w = RewardCoin_constructor deployer ->
        owner (rewardCoin w) = deployer
        /\ (msg_sender <> 0 ->
            mint asEuint64 msg_sender to amount' w = Revert Unauthorized)).
Proof.
  assert (Hother : msg_sender <> minter (rewardCoin w) ->
                   mint asEuint64 msg_sender to amount' w = Revert Unauthorized).
  { intros Hne. unfold mint, onlyMinter. unfold_M.
    now replace (msg_sender =? minter (rewardCoin w)) with false
      by (symmetry; now apply Z.eqb_neq). }
  split; [exact Hother|]. split; [|split].
  - intros -> ->. unfold mint, onlyMinter. unfold_M. now rewrite Z.eqb_refl.
  - intros -> Hto. unfold mint, onlyMinter, _mint. unfold_M.
    rewrite Z.eqb_refl. cbn [negb].
    now replace (to =? 0) with false by (symmetry; now apply Z.eqb_neq).
  - intros deployer Hfresh. split; [now rewrite Hfresh|].
    intros Hsender. apply Hother. now rewrite Hfresh.
Qed.

(** X21: the deployment script.  It fails with [InvalidAddress] when the
    RewardCoin or the staking contract would sit at [address(0)];
    otherwise it ends in a world where the deployer owns the RewardCoin,
    the staking contract is its minter, nothing is minted, staked or
    pending and the log holds the [MinterUpdated] event alone; with a
    deployer other than [address(0)] that world is, for the staking
    contract, a state reachable from its constructor. *)
Theorem deploy_darkpool_staking_names_the_minter
    deployer rewardCoinAddress stakingAddress funds :
  (rewardCoinAddress = 0 \/ stakingAddress = 0 ->
   deploy_darkpool_staking deployer rewardCoinAddress stakingAddress funds
   = Revert InvalidAddress)
  /\ (rewardCoinAddress <> 0 -> stakingAddress <> 0 ->
      exists w,
        deploy_darkpool_staking deployer rewardCoinAddress stakingAddress
          funds = Ok w
        /\ owner (rewardCoin w) = deployer
        /\ minter (rewardCoin w) = stakingAddress
        /\ minted (rewardCoin w) = []
        /\ _stakes w = ∅ /\ _withdrawRequests w = ∅
        /\ log w = [MinterUpdated stakingAddress]
        /\ (deployer <> 0 -> 0 <= funds ->
            reachable asEuint64 checkSignatures stakingAddress w)).
Proof.
  unfold deploy_darkpool_staking, constructor. cbv zeta. split.
  - intros [->| ->]; [reflexivity|].
    destruct (rewardCoinAddress =? 0); [reflexivity|].
    unfold setMinter, onlyOwner. unfold_M.
    cbn [rewardCoin owner RewardCoin_constructor]. now rewrite Z.eqb_refl.
  - intros Hcoin Hstaking.
    replace (rewardCoinAddress =? 0) with false
      by (symmetry; now apply Z.eqb_neq).
    unfold setMinter, onlyOwner. unfold_M.
    cbn [rewardCoin owner RewardCoin_constructor]. rewrite Z.eqb_refl.
    cbn [negb].
    replace (stakingAddress =? 0) with false
      by (symmetry; now apply Z.eqb_neq).
    eexists. split; [reflexivity|]. repeat (split; [reflexivity|]).
    intros Hdeployer Hfunds.
    set (w0 := {| _stakes := ∅; _withdrawRequests := ∅; balance := funds;
                  rewardCoin := RewardCoin_constructor deployer; log := [] |}).
    assert (Hstep :
              fst (transact asEuint64 checkSignatures stakingAddress 0
                     (SetMinter deployer stakingAddress) w0)
              = record (MinterUpdated stakingAddress)
                  (set_rewardCoin
                     {| owner := deployer; minter := stakingAddress;
                        minted := [] |} w0)).
    { unfold transact. cbn [exec]. unfold setMinter, onlyOwner. unfold_M.
      cbn [rewardCoin owner w0 RewardCoin_constructor]. rewrite Z.eqb_refl.
      cbn [negb].
      now replace (stakingAddress =? 0) with false
        by (symmetry; now apply Z.eqb_neq). }
    change (reachable asEuint64 checkSignatures stakingAddress
              (record (MinterUpdated stakingAddress)
                 (set_rewardCoin
                    {| owner := deployer; minter := stakingAddress;
                       minted := [] |} w0))).
    rewrite <- Hstep. apply reachable_transact.
    + apply (reachable_deploy _ _ _ rewardCoinAddress
               (RewardCoin_constructor deployer) funds); [exact Hfunds|].
      unfold constructor.
      now replace (rewardCoinAddress =? 0) with false
        by (symmetry; now apply Z.eqb_neq).
    + cbn [valid_call].
      now replace (deployer =? 0) with false by (symmetry; now apply Z.eqb_neq).
Qed.

End RewardCoinCoverage.

(** ** Concrete runs of the further properties *)

Lemma deposit_is_uint64 : is_uint64 Mock.deposit.
Proof. vm_compute. split; discriminate. Qed.


Lemma settlements_mint_their_rewards_witness :
  exists l,
    log Mock.relayed_world = l ++ log Mock.pending_world
    /\ minted (rewardCoin Mock.relayed_world)
       = rewards_of Mock.asEuint64 l ++ minted (rewardCoin Mock.pending_world)
    /\ rewards_as_computed l.
Proof.
  exact (proj2 (settlements_mint_their_rewards Mock.asEuint64
                  Mock.checkSignatures Mock.this 111
                  (FinalizeWithdraw Mock.bob Mock.deposit Mock.deposit [] true
                     [])
                  Mock.pending_world eq_refl) eq_refl).
Defined.

Lemma only_the_owner_administers_witness :
  let w' :=
    fst (Mock.transact 111
           (FinalizeWithdraw Mock.bob Mock.deposit Mock.deposit [] true
              [SetMinter Mock.alice Mock.alice])
           Mock.pending_world) in
  owner (rewardCoin w') = Mock.deployer /\ minter (rewardCoin w') = Mock.this.
Proof.
  exact (only_the_owner_administers Mock.asEuint64 Mock.checkSignatures
           Mock.this 111
           (FinalizeWithdraw Mock.bob Mock.deposit Mock.deposit [] true
              [SetMinter Mock.alice Mock.alice])
           Mock.pending_world eq_refl eq_refl).
Defined.

Lemma roles_never_zeroed_witness :
  owner (rewardCoin Mock.genesis) = Mock.deployer
  /\ owner (rewardCoin
              (fst (Mock.transact 5 (TransferOwnership Mock.deployer 0)
                      Mock.genesis))) <> 0.
Proof.
  split; [reflexivity|].
  apply (proj1 (roles_never_zeroed Mock.asEuint64 Mock.checkSignatures
                  Mock.this 5 (TransferOwnership Mock.deployer 0)
                  Mock.genesis eq_refl)).
  vm_compute. discriminate.
Defined.

Lemma constructor_fresh_ledger_witness :
  exists w,
    constructor 500 (RewardCoin_constructor Mock.deployer) 0 = Ok w
    /\ getStake Mock.alice w = (0, 0, false, false)
    /\ requestWithdraw Mock.alice 100 w = Revert NoActiveStake.
Proof.
  destruct (proj2 (constructor_fresh_ledger Mock.asEuint64
                     Mock.checkSignatures Mock.this 500
                     (RewardCoin_constructor Mock.deployer) 0))
    as (w & Hw & _ & Hfresh); [discriminate|].
  exists w. split; [exact Hw|].
  destruct (Hfresh Mock.alice 100) as (Hstake & _ & Hrequest & _).
  split; [exact Hstake|exact Hrequest].
Defined.

Lemma canWithdraw_decides_requestWithdraw_witness :
  requestWithdraw Mock.alice 110 Mock.staked_world
  = Ok (tt, requested Mock.alice Mock.staked_world)
  /\ requestWithdraw Mock.alice 109 Mock.staked_world
     = Revert WithdrawNotReady.
Proof.
  split.
  - exact (proj1 (canWithdraw_decides_requestWithdraw Mock.alice 110
                    Mock.staked_world) eq_refl).
  - exact (proj2 (canWithdraw_decides_requestWithdraw Mock.alice 109
                    Mock.staked_world) eq_refl).
Defined.

Lemma active_position_blocks_stake_witness :
  exists e,
    Mock.transact 105 (Stake Mock.alice 7 30) Mock.staked_world
    = (Mock.staked_world, Some e)
    /\ (0 < 7 <= UINT64_MAX -> 30 <> 0 -> e = ActiveStakeExists).
Proof.
  exact (active_position_blocks_stake Mock.asEuint64 Mock.checkSignatures
           Mock.this Mock.alice Mock.staked_world eq_refl 105 7 30).
Defined.

Lemma stake_goes_through_iff_witness :
  stake Mock.asEuint64 Mock.this Mock.alice Mock.deposit UINT64_MAX 1
    Mock.genesis = Revert Panic.
Proof.
  apply (proj2 (stake_goes_through_iff Mock.asEuint64 Mock.this Mock.alice
                  Mock.deposit UINT64_MAX 1 Mock.genesis
                  ltac:(vm_compute; discriminate))).
  - vm_compute. split; [reflexivity|discriminate].
  - discriminate.
  - reflexivity.
  - vm_compute. reflexivity.
Defined.

Lemma lock_holds_after_stake_witness :
  canWithdraw Mock.alice 109 Mock.staked_world = false
  /\ canWithdraw Mock.alice 110 Mock.staked_world = true
  /\ requestWithdraw Mock.alice 100 Mock.staked_world = Revert WithdrawNotReady.
Proof.
  destruct (lock_holds_after_stake Mock.asEuint64 Mock.this Mock.alice
              Mock.deposit 100 10 Mock.genesis Mock.staked_world)
    as (Hcan & _ & Hsame).
  - vm_compute. split; discriminate.
  - discriminate.
  - vm_compute. reflexivity.
  - split; [rewrite Hcan; reflexivity|].
    split; [rewrite Hcan; reflexivity|exact Hsame].
Defined.

Lemma stake_writes_own_position_witness :
  stake_of Mock.alice
    (fst (Mock.transact 100 (Stake Mock.bob Mock.deposit 10)
            Mock.pending_world))
  = stake_of Mock.alice Mock.pending_world
  /\ balance (fst (Mock.transact 100 (Stake Mock.bob Mock.deposit 10)
                    Mock.pending_world))
     = balance Mock.pending_world + Mock.deposit.
Proof.
  destruct (stake_writes_own_position Mock.asEuint64 Mock.checkSignatures
              Mock.this Mock.bob Mock.deposit 100 10 Mock.pending_world)
    as (Hframe & _ & _ & Hbalance); [vm_compute; reflexivity|].
  split; [apply Hframe; discriminate|exact Hbalance].
Defined.

Lemma requestWithdraw_writes_own_entry_witness :
  request_of Mock.deposit
    (fst (Mock.transact 110 (RequestWithdraw Mock.alice) Mock.staked_world))
  = Mock.alice
  /\ request_of 7
       (fst (Mock.transact 110 (RequestWithdraw Mock.alice) Mock.staked_world))
     = request_of 7 Mock.staked_world.
Proof.
  destruct (requestWithdraw_writes_own_entry Mock.asEuint64
              Mock.checkSignatures Mock.this Mock.alice 110 Mock.staked_world)
    as (_ & Hentry & _ & Hothers & _); [vm_compute; reflexivity|].
  split; [exact Hentry|apply Hothers; vm_compute; discriminate].
Defined.

Lemma pending_leaves_only_by_settlement_witness :
  request_of Mock.deposit
    (fst (Mock.transact 120 (RequestWithdraw Mock.bob) Mock.crowded_world))
  = Mock.alice.
Proof.
  apply (proj1 (pending_leaves_only_by_settlement Mock.asEuint64
                  Mock.checkSignatures Mock.this 120
                  (RequestWithdraw Mock.bob) Mock.crowded_world eq_refl)
           Mock.deposit).
  vm_compute. discriminate.
Defined.

Lemma reentrant_settlement_is_turned_away_witness :
  exec Mock.asEuint64 Mock.checkSignatures Mock.this 111
    (FinalizeWithdraw Mock.bob Mock.deposit Mock.deposit [] true
       [FinalizeWithdraw Mock.alice Mock.deposit Mock.deposit [] true []])
    Mock.pending_world
  = exec Mock.asEuint64 Mock.checkSignatures Mock.this 111
      (FinalizeWithdraw Mock.bob Mock.deposit Mock.deposit [] true [])
      Mock.pending_world.
Proof.
  exact (reentrant_settlement_is_turned_away Mock.asEuint64
           Mock.checkSignatures Mock.this 111 Mock.bob Mock.deposit
           Mock.deposit [] true [] Mock.alice Mock.deposit [] true []
           Mock.pending_world deposit_is_uint64).
Defined.

Lemma settlement_deletes_one_position_witness :
  stake_of Mock.bob
    (fst (Mock.transact 120
            (FinalizeWithdraw Mock.bob Mock.deposit Mock.deposit [] true [])
            Mock.crowded_world))
  = stake_of Mock.bob Mock.crowded_world.
Proof.
  destruct (settlement_deletes_one_position Mock.asEuint64
              Mock.checkSignatures Mock.this 120 Mock.bob Mock.deposit
              Mock.deposit [] Mock.crowded_world deposit_is_uint64)
    as (Hframe & _); [vm_compute; reflexivity|].
  apply Hframe. vm_compute. discriminate.
Defined.

Lemma settlement_needs_a_verified_proof_witness :
  Mock.transact 111
    (FinalizeWithdraw Mock.bob Mock.deposit (Mock.deposit - 1) [] true [])
    Mock.pending_world
  = (Mock.pending_world, Some InvalidSignatures).
Proof.
  apply (proj2 (settlement_needs_a_verified_proof Mock.asEuint64
                  Mock.checkSignatures Mock.this 111 Mock.bob Mock.deposit
                  (Mock.deposit - 1) [] true [] Mock.pending_world
                  ltac:(vm_compute; split; discriminate)));
    [vm_compute; discriminate|reflexivity|reflexivity|reflexivity].
Defined.

Lemma one_pending_handle_per_account_witness :
  request_of Mock.deposit Mock.crowded_world = Mock.alice
  /\ request_of 7 Mock.crowded_world <> Mock.alice.
Proof.
  assert (Hentry : request_of Mock.deposit Mock.crowded_world = Mock.alice)
    by reflexivity.
  split; [exact Hentry|].
  apply (one_pending_handle_per_account Mock.asEuint64 Mock.checkSignatures
           Mock.this Mock.crowded_world Mock.deposit 7 Mock.alice
           crowded_world_reachable);
    [discriminate|exact Hentry|vm_compute; discriminate].
Defined.

Lemma stake_request_settle_witness :
  let w :=
    fst (Mock.transact 130
           (FinalizeWithdraw Mock.bob Mock.deposit Mock.deposit [] true [])
           (fst (Mock.transact 120 (RequestWithdraw Mock.alice)
                   (fst (Mock.transact 100 (Stake Mock.alice Mock.deposit 10)
                           Mock.genesis))))) in
  getStake Mock.alice w = (0, 0, false, false)
  /\ balance w = 0
  /\ minted (rewardCoin w) = [(Mock.alice, 2 * 10 ^ 9)].
Proof.
  destruct (stake_request_settle Mock.asEuint64 Mock.checkSignatures Mock.this
              Mock.alice Mock.bob Mock.deposit 10 100 120 130 []
              Mock.genesis)
    as (_ & _ & _ & Hgone & _ & _ & Hbalance & Hminted & _).
  - discriminate.
  - reflexivity.
  - vm_compute. split; [reflexivity|discriminate].
  - reflexivity.
  - vm_compute. split; discriminate.
  - vm_compute. discriminate.
  - vm_compute. discriminate.
  - reflexivity.
  - vm_compute. reflexivity.
  - vm_compute. discriminate.
  - reflexivity.
  - cbv zeta. split; [exact Hgone|]. split; [exact Hbalance|exact Hminted].
Defined.

Lemma setMinter_is_the_owners_witness :
  setMinter Mock.alice Mock.alice Mock.genesis = Revert Unauthorized
  /\ setMinter Mock.deployer 0 Mock.genesis = Revert InvalidAddress.
Proof.
  split.
  - apply (proj1 (setMinter_is_the_owners Mock.alice Mock.alice Mock.genesis)).
    vm_compute. discriminate.
  - apply (proj1 (proj2 (setMinter_is_the_owners Mock.deployer 0
                           Mock.genesis))); reflexivity.
Defined.

Lemma transferOwnership_hands_over_witness :
  let w' :=
    fst (Mock.transact 5 (TransferOwnership Mock.deployer Mock.alice)
           Mock.genesis) in
  owner (rewardCoin w') = Mock.alice
  /\ setMinter Mock.deployer Mock.bob w' = Revert Unauthorized.
Proof.
  cbv zeta.
  destruct (proj2 (proj2 (transferOwnership_hands_over Mock.deployer
                            Mock.alice Mock.genesis))
              (fst (Mock.transact 5
                      (TransferOwnership Mock.deployer Mock.alice)
                      Mock.genesis)))
    as (Howner & _ & _ & Hformer & _); [vm_compute; reflexivity|].
  split; [exact Howner|].
  apply (Hformer ltac:(vm_compute; discriminate) Mock.bob).
Defined.

Lemma mint_is_the_minters_witness :
  mint Mock.asEuint64 Mock.alice Mock.alice 1000 Mock.genesis
  = Revert Unauthorized
  /\ mint Mock.asEuint64 Mock.this Mock.alice 1000 Mock.unnamed_world
     = Revert Unauthorized.
Proof.
  split.
  - apply (proj1 (mint_is_the_minters Mock.asEuint64 Mock.alice Mock.alice
                    1000 Mock.genesis)).
    vm_compute. discriminate.
  - apply (proj2 (proj2 (proj2 (mint_is_the_minters Mock.asEuint64 Mock.this
                                  Mock.alice 1000 Mock.unnamed_world)))
             Mock.deployer); [reflexivity|vm_compute; discriminate].
Defined.

Lemma deploy_darkpool_staking_names_the_minter_witness :
  exists w,
    deploy_darkpool_staking Mock.deployer 500 Mock.this 0 = Ok w
    /\ owner (rewardCoin w) = Mock.deployer
    /\ minter (rewardCoin w) = Mock.this
    /\ reachable Mock.asEuint64 Mock.checkSignatures Mock.this w.
Proof.
  destruct (proj2 (deploy_darkpool_staking_names_the_minter Mock.asEuint64
                     Mock.checkSignatures Mock.deployer 500 Mock.this 0))
    as (w & Hw & Howner & Hminter & _ & _ & _ & _ & Hreach);
    [discriminate|vm_compute; discriminate|].
  exists w. split; [exact Hw|]. split; [exact Howner|].
  split; [exact Hminter|]. apply Hreach; vm_compute; discriminate.
Defined.
